(** * webauthn.js: the CBOR interceptors and the WebAuthn ceremony driver

    A shallow embedding of [src/webauthn.js].  JavaScript objects are finite
    maps from property names to values, promises are represented by the state
    they eventually reach, and the calls the module makes into its host
    (the [cbor] and [buffer] packages, [navigator.credentials], [console],
    the typed-array constructor) go through two interfaces, [Codec] and
    [Browser], because the module imports them and does not define them. *)

From Stdlib Require Import ZArith Strings.Byte.
From stdpp Require Import gmap strings list.

Set Warnings "-register-all".
Local Open Scope string_scope.
Local Open Scope list_scope.

(** ** Values *)

(** The JavaScript values the module handles.  [VNum] carries the integers
    only; [VBytes] stands for every binary buffer ([ArrayBuffer], [Buffer],
    [Uint8Array]); [VError] is a native error object, given by its name. *)
Inductive jsval : Type :=
| VUndefined
| VNull
| VBool (b : bool)
| VNum (n : Z)
| VStr (s : string)
| VBytes (bs : list byte)
| VError (name : string)
| VArr (items : list jsval)
| VObj (props : gmap string jsval).

(** A JavaScript object: its own properties by name. *)
Abbreviation object := (gmap string jsval).

(** The result of a synchronous call: a value, or a thrown exception. *)
Inductive completion (A : Type) : Type :=
| Normal (a : A)
| Throw (e : jsval).
Arguments Normal {A} a.
Arguments Throw {A} e.

(** The state a promise ends in.  [Pending] is a promise that never settles.
    The result of a [then] or [catch] handler is given the same way: a handler
    that returns a plain value is [Fulfilled], one that throws is [Rejected],
    and one that returns a promise takes that promise's state. *)
Inductive settled (A : Type) : Type :=
| Fulfilled (a : A)
| Rejected (e : jsval)
| Pending.
Arguments Fulfilled {A} a.
Arguments Rejected {A} e.
Arguments Pending {A}.

(** Inside an [async] function or a handler, an exception rejects the promise. *)
Definition of_completion {A} (c : completion A) : settled A :=
  match c with
  | Normal a => Fulfilled a
  | Throw e => Rejected e
  end.

#[global] Instance completion_ret : MRet completion := λ A a, Normal a.
#[global] Instance completion_bind : MBind completion := λ A B f c,
  match c with
  | Normal a => f a
  | Throw e => Throw e
  end.

Definition TypeError : jsval := VError "TypeError".

(** [o.k] and [o[k]] on an object known to be one: a missing property reads
    as [undefined]. *)
Definition prop (o : object) (k : string) : jsval := default VUndefined (o !! k).

(** [v.k] on an arbitrary value: reading a property of [undefined] or [null]
    throws a [TypeError]; the names this module reads ([data], [headers],
    [content-type], [rawId], [response], ...) are no built-in property of a
    primitive, an array or a buffer, where they read as [undefined]. *)
Definition get_prop (v : jsval) (k : string) : completion jsval :=
  match v with
  | VUndefined | VNull => Throw TypeError
  | VObj o => Normal (prop o k)
  | _ => Normal VUndefined
  end.

(** The values a property cannot be read from. *)
Definition nullish (v : jsval) : Prop := v = VUndefined ∨ v = VNull.

(** [v === s] for a string literal [s]. *)
Definition strict_eq_string (v : jsval) (s : string) : bool :=
  match v with
  | VStr s' => bool_decide (s' = s)
  | _ => false
  end.

(** ** The host interfaces *)

(** What the module imports from the [cbor] and [buffer] packages:
    [encodeAsync] and [decodeAll] return promises, [Buffer.from] returns
    the bytes or throws. *)
Class Codec : Type := {
  encodeAsync : jsval → settled (list byte);
  decodeAll : list byte → settled (list jsval);
  Buffer_from : jsval → completion (list byte)
}.

(** What the module takes from the browser, over the state [W] of the world
    outside it: [console.log], [navigator.credentials.create] and
    [navigator.credentials.get], and [new Uint8Array(x)]. *)
Class Browser (W : Type) : Type := {
  console_log : list jsval → W → W;
  navigator_credentials_create : jsval → W → settled jsval * W;
  navigator_credentials_get : jsval → W → settled jsval * W;
  Uint8Array_new : jsval → completion (list byte)
}.

(** ** The CBOR interceptors *)

Definition application_cbor : string := "application/cbor".

(** [message.headers['content-type']], of a request or of a response. *)
Definition content_type (message : object) : completion jsval :=
  get_prop (prop message "headers") "content-type".

Section Interceptors.
Context {codec : Codec}.

(** [cborRequestInterceptor], lines 23-30. *)
Definition cborRequestInterceptor (request : object) : settled object :=
  match content_type request with
  | Throw e => Rejected e
  | Normal ct =>
      if strict_eq_string ct application_cbor then
        match encodeAsync (prop request "data") with
        | Fulfilled encoded =>
            let request := <["data" := VBytes encoded]> request in
            let request := <["responseType" := VStr "arraybuffer"]> request in
            Fulfilled request
        | Rejected e => Rejected e
        | Pending => Pending
        end
      else Fulfilled request
  end.

(** [const [data] = items]: the first item, [undefined] when there is none. *)
Definition first_item (items : list jsval) : jsval :=
  match items with
  | [] => VUndefined
  | data :: _ => data
  end.

(** [cborResponseInterceptor], lines 38-45. *)
Definition cborResponseInterceptor (response : object) : settled object :=
  match content_type response with
  | Throw e => Rejected e
  | Normal ct =>
      if strict_eq_string ct application_cbor then
        match Buffer_from (prop response "data") with
        | Throw e => Rejected e
        | Normal buffer =>
            match decodeAll buffer with
            | Fulfilled items =>
                Fulfilled (<["data" := first_item items]> response)
            | Rejected e => Rejected e
            | Pending => Pending
            end
        end
      else Fulfilled response
  end.
End Interceptors.

(** ** The ceremony driver *)

(** Error codes passed as second argument of [failure_callback], lines 66-69. *)
Definition WEBAUTHN_REGISTER_FAIL_BEGIN : Z := 1.
Definition WEBAUTHN_REGISTER_FAIL_COMPLETE : Z := 2.
Definition WEBAUTHN_LOGIN_FAIL_BEGIN : Z := 3.
Definition WEBAUTHN_LOGIN_FAIL_COMPLETE : Z := 4.

(** The calls of one ceremony that its contract speaks of, in the order they
    are made: a log kept beside the run, which no callback can touch. *)
Inductive event : Type :=
| Post (url : string) (data : jsval)
| Credentials (opts : jsval)
| Success (res : jsval)
| Failure (error : jsval) (code : Z).

Definition failure_calls (log : list event) : list (jsval * Z) :=
  omap (λ ev, match ev with Failure error code => Some (error, code) | _ => None end) log.

Definition success_calls (log : list event) : list jsval :=
  omap (λ ev, match ev with Success res => Some res | _ => None end) log.

Definition credentials_calls (log : list event) : list jsval :=
  omap (λ ev, match ev with Credentials opts => Some opts | _ => None end) log.

Definition posts (log : list event) : list (string * jsval) :=
  omap (λ ev, match ev with Post url data => Some (url, data) | _ => None end) log.

(** What a call of [webauthn_internal] leaves behind: the value it returns,
    the state of the promise chain of lines 164-172, which no variable holds,
    and the state of the chain of lines 169-171 once the last handler has
    started it. *)
Record ceremony : Type := Ceremony {
  returned : jsval;
  outer_chain : settled jsval;
  inner_chain : option (settled jsval)
}.

Section Ceremony.
Context {W : Type} {browser : Browser W}.

(** A caller's callback receives a value and may change the world; see
    [settled] for how its result is read. *)
Definition callback : Type := jsval → W → settled jsval * W.
Definition failure_callback_t : Type := jsval → Z → W → settled jsval * W.
Definition payload_callback : Type := object → jsval → W → completion jsval * W.

(** The HTTP client [ax]: [ax.post(url, data)] returns a promise. *)
Record transport : Type := Transport {
  post : string → jsval → W → settled jsval * W
}.

Record state : Type := State { world : W; trace : list event }.

Definition initial (w : W) : state := {| world := w; trace := [] |}.

Definition M (A : Type) : Type := state → A * state.

Definition ret {A} (a : A) : M A := λ s, (a, s).

Definition bind {A B} (m : M A) (k : A → M B) : M B :=
  λ s, let '(a, s') := m s in k a s'.

Definition emit (ev : event) : M unit :=
  λ s, (tt, {| world := world s; trace := trace s ++ [ev] |}).

Definition host {A} (call : W → A * W) : M A :=
  λ s, let '(a, w) := call (world s) in (a, {| world := w; trace := trace s |}).

(** [p.then(f)] and [p.catch(g)], once [p] has reached its state. *)
Definition then_ {A B} (p : settled A) (f : A → M (settled B)) : M (settled B) :=
  match p with
  | Fulfilled a => f a
  | Rejected e => ret (Rejected e)
  | Pending => ret Pending
  end.

Definition catch_ {A} (p : settled A) (g : jsval → M (settled A)) : M (settled A) :=
  match p with
  | Rejected e => g e
  | _ => ret p
  end.
End Ceremony.

Arguments callback W : clear implicits.
Arguments failure_callback_t W : clear implicits.
Arguments payload_callback W : clear implicits.
Arguments transport W : clear implicits.
Arguments state W : clear implicits.
Arguments M W A : clear implicits.

Notation "'let*' x := m 'in' k" := (bind m (λ x, k))
  (at level 10, x name, m at level 100, k at level 200).
Notation "m ;;; k" := (bind m (λ _, k))
  (at level 100, k at level 200, right associativity).

Section Orchestrator.
Context {W : Type} {browser : Browser W}.

(** The arguments of [console.log] on line 163. *)
Definition banner (beginurl completeurl : string) : list jsval :=
  [VStr "webauthn:";
   VObj (<["complete" := VStr completeurl]> (<["begin" := VStr beginurl]> ∅))].

(** The world the begin request is sent in: line 163 has logged. *)
Definition logged (beginurl completeurl : string) (w : W) : W :=
  console_log (banner beginurl completeurl) w.

Definition ax_post (ax : transport W) (url : string) (data : jsval) : M W (settled jsval) :=
  emit (Post url data);;; host (post ax url data).

Definition call_credentials (credentials_callback : callback W) (opts : jsval)
  : M W (settled jsval) :=
  emit (Credentials opts);;; host (credentials_callback opts).

Definition call_success (success_callback : callback W) (res : jsval)
  : M W (settled jsval) :=
  emit (Success res);;; host (success_callback res).

Definition call_failure (failure_callback : failure_callback_t W) (error : jsval) (code : Z)
  : M W (settled jsval) :=
  emit (Failure error code);;; host (failure_callback error code).

(** The handler of the last [then], lines 168-172: it builds the complete
    payload, starts the chain of the complete request and returns nothing,
    so the outer chain is fulfilled with [undefined] whatever the inner one
    does. *)
Definition complete_handler (payload : object) (success_callback : callback W)
    (failure_callback : failure_callback_t W)
    (complete_context_callback : payload_callback W)
    (completeurl : string) (complete_failure_code : Z) (ax : transport W)
    (auth : jsval) : M W (settled jsval * option (settled jsval)) :=
  let* context := host (complete_context_callback payload auth) in
  match context with
  | Throw e => ret (Rejected e, None)
  | Normal data =>
      let* q0 := ax_post ax completeurl data in
      let* q1 := then_ q0 (call_success success_callback) in
      let* q2 := catch_ q1 (λ error,
                   call_failure failure_callback error complete_failure_code) in
      ret (Fulfilled VUndefined, Some q2)
  end.

(** [webauthn_internal], lines 160-174.  The body is a block with no
    [return]: the call evaluates to [undefined]. *)
Definition webauthn_internal (payload : object) (success_callback : callback W)
    (failure_callback : failure_callback_t W) (credentials_callback : callback W)
    (complete_context_callback : payload_callback W)
    (beginurl completeurl : string) (begin_failure_code complete_failure_code : Z)
    (ax : transport W) : M W ceremony :=
  host (λ w, (tt, logged beginurl completeurl w));;;
  let* p0 := ax_post ax beginurl (VObj payload) in
  let* p1 := then_ p0 (λ res, ret (of_completion (get_prop res "data"))) in
  let* p2 := catch_ p1 (λ error,
               call_failure failure_callback error begin_failure_code) in
  let* p3 := then_ p2 (call_credentials credentials_callback) in
  let* p4 :=
    match p3 with
    | Fulfilled auth =>
        complete_handler payload success_callback failure_callback
          complete_context_callback completeurl complete_failure_code ax auth
    | Rejected e => ret (Rejected e, None)
    | Pending => ret (Pending, None)
    end in
  ret {| returned := VUndefined; outer_chain := p4.1; inner_chain := p4.2 |}.
End Orchestrator.

(** ** The order of the calls

    The logs a ceremony can leave.  The complete phase sends its request and
    then calls [success_callback], [failure_callback], or the first and then
    the second; the credentials phase calls the credentials callback and goes
    on to the complete phase; the begin phase sends its request and may call
    [failure_callback] before the credentials phase. *)

Inductive complete_log (completeurl : string) (code : Z) : list event → Prop :=
| complete_sent data :
    complete_log completeurl code [Post completeurl data]
| complete_refused data error :
    complete_log completeurl code [Post completeurl data; Failure error code]
| complete_accepted data res :
    complete_log completeurl code [Post completeurl data; Success res]
| complete_accepted_thrown data res thrown :
    complete_log completeurl code
      [Post completeurl data; Success res; Failure thrown code].

Inductive credentials_log (completeurl : string) (code : Z) : list event → Prop :=
| credentials_not_asked : credentials_log completeurl code []
| credentials_asked opts : credentials_log completeurl code [Credentials opts]
| credentials_answered opts tail :
    complete_log completeurl code tail →
    credentials_log completeurl code (Credentials opts :: tail).

Inductive ceremony_log (beginurl : string) (payload : object) (begin_code : Z)
    (completeurl : string) (complete_code : Z) : list event → Prop :=
| begin_sent tail :
    credentials_log completeurl complete_code tail →
    ceremony_log beginurl payload begin_code completeurl complete_code
      (Post beginurl (VObj payload) :: tail)
| begin_failed error tail :
    credentials_log completeurl complete_code tail →
    ceremony_log beginurl payload begin_code completeurl complete_code
      (Post beginurl (VObj payload) :: Failure error begin_code :: tail).

(** ** The two ceremonies *)

Section Specializations.
Context {W : Type} {browser : Browser W}.

(** The shared client [axios_cbor] of lines 53-60, the default of [ax]: what
    its [post] answers is decided by the network and the server. *)
Context (axios_cbor : transport W).

(** [complete_payload_callback] of [webauthn_login], lines 94-102: the
    properties are evaluated in the order they are written, after the
    spread of [payload]. *)
Definition login_complete_payload_callback (payload : object) (assertion : jsval)
  : completion jsval :=
  rawId ← get_prop assertion "rawId";
  credentialId ← Uint8Array_new rawId;
  response ← get_prop assertion "response";
  field ← get_prop response "authenticatorData";
  authenticatorData ← Uint8Array_new field;
  response ← get_prop assertion "response";
  field ← get_prop response "clientDataJSON";
  clientDataJSON ← Uint8Array_new field;
  response ← get_prop assertion "response";
  field ← get_prop response "signature";
  signature ← Uint8Array_new field;
  mret (VObj (<["signature" := VBytes signature]>
             (<["clientDataJSON" := VBytes clientDataJSON]>
             (<["authenticatorData" := VBytes authenticatorData]>
             (<["credentialId" := VBytes credentialId]> payload))))).

(** [complete_payload_callback] of [webauthn_register], lines 131-137. *)
Definition register_complete_payload_callback (payload : object) (attestation : jsval)
  : completion jsval :=
  response ← get_prop attestation "response";
  field ← get_prop response "attestationObject";
  attestationObject ← Uint8Array_new field;
  response ← get_prop attestation "response";
  field ← get_prop response "clientDataJSON";
  clientDataJSON ← Uint8Array_new field;
  mret (VObj (<["clientDataJSON" := VBytes clientDataJSON]>
             (<["attestationObject" := VBytes attestationObject]> payload))).

(** The default [failure_callback]s, lines 87-88 and 124-125: they log and
    return [undefined]. *)
Definition login_default_failure_callback : failure_callback_t W :=
  λ error code w,
    (Fulfilled VUndefined, console_log [VStr "webauthn-login failed:"; VNum code; error] w).

Definition register_default_failure_callback : failure_callback_t W :=
  λ error code w,
    (Fulfilled VUndefined, console_log [VStr "webauthn-register failed."; VNum code; error] w).

(** [webauthn_login], lines 85-107.  An optional argument left out is [None]. *)
Definition webauthn_login (payload : object) (success_callback : callback W)
    (failure_callback : option (failure_callback_t W))
    (beginurl completeurl : option string) (ax : option (transport W)) : M W ceremony :=
  let failure_callback := default login_default_failure_callback failure_callback in
  let beginurl := default "/api/auth/login/begin/" beginurl in
  let completeurl := default "/api/auth/login/" completeurl in
  let ax := default axios_cbor ax in
  let credentials_callback : callback W := λ opts, navigator_credentials_get opts in
  let complete_payload_callback : payload_callback W :=
    λ payload assertion w, (login_complete_payload_callback payload assertion, w) in
  webauthn_internal payload success_callback failure_callback credentials_callback
    complete_payload_callback beginurl completeurl
    WEBAUTHN_LOGIN_FAIL_BEGIN WEBAUTHN_LOGIN_FAIL_COMPLETE ax.

(** [webauthn_register], lines 122-143. *)
Definition webauthn_register (payload : object) (success_callback : callback W)
    (failure_callback : option (failure_callback_t W))
    (beginurl completeurl : option string) (ax : option (transport W)) : M W ceremony :=
  let failure_callback := default register_default_failure_callback failure_callback in
  let beginurl := default "/api/auth/register/begin/" beginurl in
  let completeurl := default "/api/auth/register/" completeurl in
  let ax := default axios_cbor ax in
  let credentials_callback : callback W := λ opts, navigator_credentials_create opts in
  let complete_payload_callback : payload_callback W :=
    λ payload attestation w, (register_complete_payload_callback payload attestation, w) in
  webauthn_internal payload success_callback failure_callback credentials_callback
    complete_payload_callback beginurl completeurl
    WEBAUTHN_REGISTER_FAIL_BEGIN WEBAUTHN_REGISTER_FAIL_COMPLETE ax.
End Specializations.

(** [v.k1.k2...]: the properties of [path] read one after the other. *)
Fixpoint get_path (v : jsval) (path : list string) : completion jsval :=
  match path with
  | [] => Normal v
  | k :: path => v' ← get_prop v k; get_path v' path
  end.

(** [new Uint8Array(credential.k1.k2...)]: the bytes a complete payload takes
    from the credential at [path]. *)
Definition credential_bytes {W : Type} {browser : Browser W}
    (credential : jsval) (path : list string) : completion (list byte) :=
  field ← get_path credential path; Uint8Array_new field.

(** ** A reference host

    An instance of each interface, to run the module on concrete inputs.
    [Cbor] is the RFC 8949 encoding of the values [jsval] has: definite
    lengths, integers of at most 64 bits, maps with text keys.  It is no part
    of [src/webauthn.js]; no statement about the module below depends on it
    except through the examples. *)

Module Cbor.
Local Open Scope N_scope.
Local Open Scope list_scope.

Definition byte_of_N (n : N) : byte := default x00 (Byte.of_N (n mod 256)).

(** The [k] low bytes of [n], most significant first. *)
Fixpoint big_endian (k : nat) (n : N) : list byte :=
  match k with
  | O => []
  | S k' => byte_of_N (n / 256 ^ N.of_nat k') :: big_endian k' n
  end.

Definition uint (bs : list byte) : N :=
  foldl (λ acc b, acc * 256 + Byte.to_N b) 0 bs.

(** The head of a data item: major type and argument, in the shortest form. *)
Definition head (major n : N) : list byte :=
  if n <? 24 then [byte_of_N (major * 32 + n)]
  else if n <? 256 then byte_of_N (major * 32 + 24) :: big_endian 1 n
  else if n <? 65536 then byte_of_N (major * 32 + 25) :: big_endian 2 n
  else if n <? 4294967296 then byte_of_N (major * 32 + 26) :: big_endian 4 n
  else byte_of_N (major * 32 + 27) :: big_endian 8 n.

Definition text (s : string) : list byte :=
  let body := Stdlib.Strings.String.list_byte_of_string s in
  head 3 (N.of_nat (length body)) ++ body.

Fixpoint encode (v : jsval) : list byte :=
  match v with
  | VUndefined | VError _ => [byte_of_N 247]
  | VNull => [byte_of_N 246]
  | VBool false => [byte_of_N 244]
  | VBool true => [byte_of_N 245]
  | VNum n => if (0 <=? n)%Z then head 0 (Z.to_N n) else head 1 (Z.to_N (-1 - n))
  | VStr s => text s
  | VBytes bs => head 2 (N.of_nat (length bs)) ++ bs
  | VArr items =>
      head 4 (N.of_nat (length items)) ++ foldr (λ item acc, encode item ++ acc) [] items
  | VObj props =>
      head 5 (N.of_nat (size props))
      ++ map_fold (λ key value acc, text key ++ encode value ++ acc) [] props
  end.

(** What fits in the argument of a head. *)
Definition fits (n : N) : bool := n <? 18446744073709551616.

(** The values [encode] is defined for: no error object, integers of at
    most 64 bits, lengths that fit in a head. *)
Fixpoint encodable (v : jsval) : bool :=
  match v with
  | VError _ => false
  | VNum n => bool_decide (-18446744073709551616 ≤ n < 18446744073709551616)%Z
  | VStr s => fits (N.of_nat (length (Stdlib.Strings.String.list_byte_of_string s)))
  | VBytes bs => fits (N.of_nat (length bs))
  | VArr items => fits (N.of_nat (length items)) && forallb encodable items
  | VObj props =>
      fits (N.of_nat (size props))
      && map_fold (λ key value acc,
           fits (N.of_nat (length (Stdlib.Strings.String.list_byte_of_string key)))
           && encodable value && acc) true props
  | _ => true
  end.

Definition split_exact (n : N) (bs : list byte) : option (list byte * list byte) :=
  if n <=? N.of_nat (length bs)
  then Some (take (N.to_nat n) bs, drop (N.to_nat n) bs)
  else None.

(** The argument of a head whose additional information is [info]. *)
Definition argument (info : N) (bs : list byte) : option (N * list byte) :=
  if info <? 24 then Some (info, bs)
  else
    width ← match info with
            | 24 => Some 1 | 25 => Some 2 | 26 => Some 4 | 27 => Some 8
            | _ => None
            end;
    '(arg, rest) ← split_exact width bs;
    Some (uint arg, rest).

Definition text_key (v : jsval) : option string :=
  match v with
  | VStr s => Some s
  | _ => None
  end.

(** [count] items in a row, each read by [decode]. *)
Fixpoint decode_items (decode : list byte → option (jsval * list byte))
    (count : nat) (bs : list byte) : option (list jsval * list byte) :=
  match count with
  | O => Some ([], bs)
  | S count =>
      '(item, bs) ← decode bs;
      '(more, bs) ← decode_items decode count bs;
      Some (item :: more, bs)
  end.

(** [count] pairs of a text key and a value, added to [props] in the order
    they are read: a key read twice keeps its last value. *)
Fixpoint decode_pairs (decode : list byte → option (jsval * list byte))
    (count : nat) (props : object) (bs : list byte) : option (object * list byte) :=
  match count with
  | O => Some (props, bs)
  | S count =>
      '(key, bs) ← decode bs;
      key ← text_key key;
      '(value, bs) ← decode bs;
      decode_pairs decode count (<[key := value]> props) bs
  end.

(** One data item off the front of [bs]; [fuel] bounds the nesting. *)
Fixpoint decode_item (fuel : nat) (bs : list byte) : option (jsval * list byte) :=
  match fuel, bs with
  | S fuel, b :: bs =>
      let major := Byte.to_N b / 32 in
      let info := Byte.to_N b mod 32 in
      if major =? 7 then
        match info with
        | 20 => Some (VBool false, bs)
        | 21 => Some (VBool true, bs)
        | 22 => Some (VNull, bs)
        | 23 => Some (VUndefined, bs)
        | _ => None
        end
      else
        '(n, bs) ← argument info bs;
        match major with
        | 0 => Some (VNum (Z.of_N n), bs)
        | 1 => Some (VNum (-1 - Z.of_N n), bs)
        | 2 => '(body, rest) ← split_exact n bs; Some (VBytes body, rest)
        | 3 =>
            '(body, rest) ← split_exact n bs;
            Some (VStr (Stdlib.Strings.String.string_of_list_byte body), rest)
        | 4 =>
            if n <=? N.of_nat (length bs) then
              '(items, rest) ← decode_items (decode_item fuel) (N.to_nat n) bs;
              Some (VArr items, rest)
            else None
        | 5 =>
            if n <=? N.of_nat (length bs) then
              '(props, rest) ← decode_pairs (decode_item fuel) (N.to_nat n) ∅ bs;
              Some (VObj props, rest)
            else None
        | _ => None
        end
  | _, _ => None
  end.

Fixpoint decode_all (fuel : nat) (bs : list byte) : option (list jsval) :=
  match bs, fuel with
  | [], _ => Some []
  | _, O => None
  | _, S fuel =>
      '(item, rest) ← decode_item (length bs) bs;
      more ← decode_all fuel rest;
      Some (item :: more)
  end.

Definition codec_error : jsval := VError "Error".

#[export] Instance codec : Codec := {|
  encodeAsync v := if encodable v then Fulfilled (encode v) else Rejected codec_error;
  decodeAll bs :=
    match decode_all (length bs) bs with
    | Some items => Fulfilled items
    | None => Rejected codec_error
    end;
  Buffer_from v :=
    match v with
    | VBytes bs => Normal bs
    | VStr s => Normal (Stdlib.Strings.String.list_byte_of_string s)
    | _ => Throw TypeError
    end
|}.
End Cbor.

Module Reference.
(** The world of the examples: the lines written to the console. *)
Definition console : Type := list (list jsval).

Definition attestation : jsval :=
  VObj (<["response" := VObj (<["attestationObject" := VBytes [x0a; x0b]]>
                             (<["clientDataJSON" := VBytes [x0c]]> ∅))]> ∅).

Definition assertion : jsval :=
  VObj (<["rawId" := VBytes [x01]]>
       (<["response" := VObj (<["authenticatorData" := VBytes [x02; x03]]>
                             (<["clientDataJSON" := VBytes [x0c]]>
                             (<["signature" := VBytes [x04]]> ∅)))]> ∅)).

Definition NotSupportedError : jsval := VError "NotSupportedError".

(** A browser with one authenticator: a request that carries options is
    answered with [attestation] or [assertion], one without options is
    rejected.  [new Uint8Array(x)] is given for a buffer, for [undefined]
    and for [null]; any other argument, which no example passes, gives the
    empty array. *)
#[export] Instance browser : Browser console := {|
  console_log args w := w ++ [args];
  navigator_credentials_create opts w :=
    match opts with
    | VObj _ => (Fulfilled attestation, w)
    | _ => (Rejected NotSupportedError, w)
    end;
  navigator_credentials_get opts w :=
    match opts with
    | VObj _ => (Fulfilled assertion, w)
    | _ => (Rejected NotSupportedError, w)
    end;
  Uint8Array_new x :=
    match x with
    | VBytes bs => Normal bs
    | _ => Normal []
    end
|}.

(** A server, as the client sees it: what the begin endpoint and the
    complete endpoint answer. *)
Definition server (beginurl : string) (begin complete : settled jsval) : transport console :=
  {| post url data w := (if bool_decide (url = beginurl) then begin else complete, w) |}.

Definition alice : object := <["username" := VStr "alice"]> ∅.
Definition bob : object := <["username" := VStr "bob"]> ∅.

Definition options : jsval :=
  VObj (<["publicKey" := VObj (<["challenge" := VBytes [x2a]]> ∅)]> ∅).
Definition challenge : jsval := VObj (<["data" := options]> ∅).
Definition done : jsval := VObj (<["data" := VStr "OK"]> ∅).
Definition status_400 : jsval := VError "Request failed with status code 400".
Definition status_500 : jsval := VError "Request failed with status code 500".

(** Callbacks of a caller: they write a line to the console. *)
Definition success : callback console :=
  λ res w, (Fulfilled VUndefined, w ++ [[VStr "success"; res]]).
Definition failure : failure_callback_t console :=
  λ error code w, (Fulfilled VUndefined, w ++ [[VStr "failure"; VNum code; error]]).

(** A success callback that throws. *)
Definition broken : jsval := VError "ReferenceError".
Definition success_throws : callback console := λ res w, (Rejected broken, w).

(** The complete payload of the registration of [alice]. *)
Definition alice_complete : jsval :=
  VObj (<["clientDataJSON" := VBytes [x0c]]>
       (<["attestationObject" := VBytes [x0a; x0b]]> alice)).

(** The user dismisses the prompt. *)
Definition NotAllowedError : jsval := VError "NotAllowedError".
Definition prompt_dismissed : callback console := λ opts w, (Rejected NotAllowedError, w).

Definition register_begin : string := "/api/auth/register/begin/".
Definition login_begin : string := "/api/auth/login/begin/".
Definition login_complete : string := "/api/auth/login/".

(** [webauthn_register({username: "alice"}, success)] against a server
    whose begin endpoint answers 400. *)
Definition register_begin_400 : ceremony * state console :=
  webauthn_register (server register_begin (Rejected status_400) Pending)
    alice success None None None None (initial []).

(** [webauthn_register({username: "alice"}, success, failure)] against a
    server that accepts both requests. *)
Definition register_accepted (success_callback : callback console)
  : ceremony * state console :=
  webauthn_register (server register_begin (Fulfilled challenge) (Fulfilled done))
    alice success_callback (Some failure) None None None (initial []).

(** [webauthn_login({username: "bob"}, success, failure)] against a server
    whose complete endpoint answers 500. *)
Definition login_complete_500 : ceremony * state console :=
  webauthn_login (server login_begin (Fulfilled challenge) (Rejected status_500))
    bob success (Some failure) None None None (initial []).

(** The driver itself, with a credentials callback that rejects. *)
Definition login_prompt_dismissed : ceremony * state console :=
  webauthn_internal bob success failure prompt_dismissed
    (λ payload assertion w, (login_complete_payload_callback payload assertion, w))
    login_begin login_complete WEBAUTHN_LOGIN_FAIL_BEGIN WEBAUTHN_LOGIN_FAIL_COMPLETE
    (server login_begin (Fulfilled challenge) Pending) (initial []).

(** The driver itself, with a credentials callback that answers whatever it
    is given, against a server that refuses both requests. *)
Definition always_attests : callback console := λ opts w, (Fulfilled attestation, w).

Definition register_refused_twice : ceremony * state console :=
  webauthn_internal alice success failure always_attests
    (λ payload attestation w, (register_complete_payload_callback payload attestation, w))
    register_begin "/api/auth/register/"
    WEBAUTHN_REGISTER_FAIL_BEGIN WEBAUTHN_REGISTER_FAIL_COMPLETE
    (server register_begin (Rejected status_400) (Rejected status_500)) (initial []).

Definition cbor_headers : jsval := VObj (<["content-type" := VStr application_cbor]> ∅).
Definition json_headers : jsval := VObj (<["content-type" := VStr "application/json"]> ∅).

Definition request : object :=
  <["url" := VStr "/api/auth/login/begin/"]>
  (<["method" := VStr "post"]>
  (<["headers" := cbor_headers]>
  (<["data" := VObj bob]> ∅))).

Definition response (body : jsval) : object :=
  <["status" := VNum 200]>
  (<["headers" := cbor_headers]>
  (<["data" := body]> ∅)).

(** The same messages, as JSON traffic. *)
Definition json_request : object := <["headers" := json_headers]> request.
Definition json_response (body : jsval) : object :=
  <["headers" := json_headers]> (response body).

(** A body that holds two items: [{username: "alice"}], then [null]. *)
Definition two_items : list byte := Cbor.encode (VObj alice) ++ Cbor.encode VNull.

(** A message with no [headers] property. *)
Definition no_headers : object := <["data" := VObj bob]> ∅.

(** A request whose header is spelled [Content-Type]. *)
Definition capitalized_request : object :=
  <["headers" := VObj (<["Content-Type" := VStr application_cbor]> ∅)]> request.

(** A request whose body the reference codec refuses. *)
Definition unencodable_request : object := <["data" := VError "Error"]> request.

(** A body that is no CBOR item. *)
Definition malformed : list byte := [xff].

(** A failure callback that throws. *)
Definition failure_throws : failure_callback_t console :=
  λ error code w, (Rejected broken, w).

(** A credentials callback that resolves with [null], and one that never
    settles. *)
Definition resolves_null : callback console := λ opts w, (Fulfilled VNull, w).
Definition never_answers : callback console := λ opts w, (Pending, w).

(** The complete payload callback of [webauthn_login], as the driver takes
    it. *)
Definition login_payload_callback : payload_callback console :=
  λ payload assertion w, (login_complete_payload_callback payload assertion, w).

(** The complete payload of the login of [bob]. *)
Definition bob_complete : jsval :=
  VObj (<["signature" := VBytes [x04]]>
       (<["clientDataJSON" := VBytes [x0c]]>
       (<["authenticatorData" := VBytes [x02; x03]]>
       (<["credentialId" := VBytes [x01]]> bob)))).

(** The driver as [webauthn_login] calls it, with the transport and the
    callbacks left open. *)
Definition login_with (ax : transport console) (failure_callback : failure_callback_t console)
    (credentials_callback : callback console) : ceremony * state console :=
  webauthn_internal bob success failure_callback credentials_callback
    login_payload_callback login_begin login_complete
    WEBAUTHN_LOGIN_FAIL_BEGIN WEBAUTHN_LOGIN_FAIL_COMPLETE ax (initial []).

(** [webauthn_login({username: "bob"}, success)] against a server whose begin
    endpoint answers 400. *)
Definition login_begin_400 : ceremony * state console :=
  webauthn_login (server login_begin (Rejected status_400) Pending)
    bob success None None None None (initial []).

End Reference.

(** ** Proof tactics *)

(** Splits on the outcome of the first call a chain of [completion]s makes. *)
Ltac first_call H :=
  match type of H with
  | context [mbind _ ?c] =>
      let E := fresh "Hcall" in
      destruct c eqn:E; cbn [mbind completion_bind] in H; [| discriminate H]
  end.

(** Runs the driver one call further.  The innermost call the goal waits
    for is rewritten when a hypothesis gives its outcome, and split into its
    outcomes otherwise. *)
Ltac split_call call :=
  lazymatch call with
  | context [match ?inner with _ => _ end] => split_call inner
  | _ =>
      first [ match goal with H : call = _ |- _ => rewrite H end
            | destruct call ]
  end.

Ltac run_step :=
  match goal with
  | |- context [match ?call with _ => _ end] => split_call call
  end.

Ltac run :=
  unfold webauthn_internal, complete_handler, ax_post, call_credentials,
    call_success, call_failure, then_, catch_, bind, ret, host, emit, initial,
    of_completion;
  cbn [world trace fst snd returned outer_chain inner_chain app];
  repeat (run_step; cbn [world trace fst snd returned outer_chain inner_chain app]).

(** * Properties *)

(** ** The CBOR interceptors *)

Lemma strict_eq_string_true (v : jsval) (s : string) :
  strict_eq_string v s = true ↔ v = VStr s.
Proof.
  destruct v; simpl; try (split; [discriminate | congruence]).
  rewrite bool_decide_eq_true. split; congruence.
Qed.

Lemma strict_eq_string_false (v : jsval) (s : string) :
  strict_eq_string v s = false ↔ v ≠ VStr s.
Proof.
  rewrite <- strict_eq_string_true. destruct (strict_eq_string v s); split; congruence.
Qed.


Section InterceptorProperties.
Context {codec : Codec}.

Lemma cborRequestInterceptor_marker (request : object) :
  content_type request = Normal (VStr application_cbor) →
  cborRequestInterceptor request =
    match encodeAsync (prop request "data") with
    | Fulfilled encoded =>
        Fulfilled (<["responseType" := VStr "arraybuffer"]>
                  (<["data" := VBytes encoded]> request))
    | Rejected e => Rejected e
    | Pending => Pending
    end.
Proof.
  intros Hct. unfold cborRequestInterceptor. rewrite Hct.
  by rewrite (proj2 (strict_eq_string_true _ _) eq_refl).
Qed.

Lemma cborRequestInterceptor_other (request : object) (ct : jsval) :
  content_type request = Normal ct → ct ≠ VStr application_cbor →
  cborRequestInterceptor request = Fulfilled request.
Proof.
  intros Hct Hne. unfold cborRequestInterceptor. rewrite Hct.
  by rewrite (proj2 (strict_eq_string_false _ _) Hne).
Qed.

Lemma cborResponseInterceptor_marker (response : object) (buffer : list byte) :
  content_type response = Normal (VStr application_cbor) →
  Buffer_from (prop response "data") = Normal buffer →
  cborResponseInterceptor response =
    match decodeAll buffer with
    | Fulfilled items => Fulfilled (<["data" := first_item items]> response)
    | Rejected e => Rejected e
    | Pending => Pending
    end.
Proof.
  intros Hct Hbuf. unfold cborResponseInterceptor. rewrite Hct.
  by rewrite (proj2 (strict_eq_string_true _ _) eq_refl), Hbuf.
Qed.

Lemma cborResponseInterceptor_other (response : object) (ct : jsval) :
  content_type response = Normal ct → ct ≠ VStr application_cbor →
  cborResponseInterceptor response = Fulfilled response.
Proof.
  intros Hct Hne. unfold cborResponseInterceptor. rewrite Hct.
  by rewrite (proj2 (strict_eq_string_false _ _) Hne).
Qed.

(** C6.  The request interceptor encodes the body and asks for an
    [arraybuffer] response exactly when the content-type header is
    [application/cbor]: with the marker, the request comes back with [data]
    replaced by its encoding and [responseType] set, every other property
    as it was; with any other content-type it comes back as it is. *)
Theorem cborRequestInterceptor_spec (request : object) (ct : jsval) :
  content_type request = Normal ct →
  (ct = VStr application_cbor →
     ∀ encoded, encodeAsync (prop request "data") = Fulfilled encoded →
     ∃ request',
       cborRequestInterceptor request = Fulfilled request'
       ∧ request' !! "data" = Some (VBytes encoded)
       ∧ request' !! "responseType" = Some (VStr "arraybuffer")
       ∧ ∀ k, k ≠ "data" → k ≠ "responseType" → request' !! k = request !! k)
  ∧ (ct ≠ VStr application_cbor → cborRequestInterceptor request = Fulfilled request).
Proof.
  intros Hct. split.
  - intros -> encoded Henc.
    rewrite (cborRequestInterceptor_marker _ Hct), Henc.
    eexists. split; [reflexivity |]. split; [| split].
    + by rewrite lookup_insert_ne, lookup_insert_eq.
    + by rewrite lookup_insert_eq.
    + intros k Hd Hr. by rewrite !lookup_insert_ne.
  - intros Hne. by eapply cborRequestInterceptor_other.
Qed.

(** C7.  With the marker in the content-type header, the response
    interceptor decodes the body and puts the first decoded item, and only
    that one, in [response.data]; with any other content-type the response
    comes back as it is. *)
Theorem cborResponseInterceptor_spec (response : object) (ct : jsval) :
  content_type response = Normal ct →
  (ct = VStr application_cbor →
     ∀ buffer first others,
       Buffer_from (prop response "data") = Normal buffer →
       decodeAll buffer = Fulfilled (first :: others) →
       cborResponseInterceptor response = Fulfilled (<["data" := first]> response))
  ∧ (ct ≠ VStr application_cbor → cborResponseInterceptor response = Fulfilled response).
Proof.
  intros Hct. split.
  - intros -> buffer first others Hbuf Hdec.
    by rewrite (cborResponseInterceptor_marker _ _ Hct Hbuf), Hdec.
  - intros Hne. by eapply cborResponseInterceptor_other.
Qed.

(** C10.  A response marked [application/cbor] whose body holds no CBOR item
    is not an error: [response.data] becomes [undefined] and the response
    is returned. *)
Theorem cborResponseInterceptor_no_item (response : object) (buffer : list byte) :
  content_type response = Normal (VStr application_cbor) →
  Buffer_from (prop response "data") = Normal buffer →
  decodeAll buffer = Fulfilled [] →
  cborResponseInterceptor response = Fulfilled (<["data" := VUndefined]> response).
Proof.
  intros Hct Hbuf Hdec.
  by rewrite (cborResponseInterceptor_marker _ _ Hct Hbuf), Hdec.
Qed.

End InterceptorProperties.

(** ** The reference codec

    Every value [Cbor.encodable] accepts is given back by the reference
    codec: the hypothesis of the round trip through the interceptors holds
    there for all of them. *)

Section CborRoundTrip.
Import Cbor.
Local Open Scope N_scope.

Lemma to_N_byte_of_N (n : N) : Byte.to_N (byte_of_N n) = n mod 256.
Proof.
  unfold byte_of_N. destruct (Byte.of_N (n mod 256)) as [b|] eqn:Hb; simpl.
  - by apply Byte.to_of_N.
  - apply Byte.of_N_None_iff in Hb.
    pose proof (N.mod_upper_bound n 256). lia.
Qed.

Lemma byte_of_N_to_N (b : byte) : byte_of_N (Byte.to_N b) = b.
Proof.
  unfold byte_of_N. rewrite N.mod_small.
  - by rewrite Byte.of_to_N.
  - pose proof (Byte.to_N_bounded b). lia.
Qed.

Lemma length_big_endian (k : nat) (n : N) : length (big_endian k n) = k.
Proof. induction k; simpl; by f_equal. Qed.

Lemma foldl_uint (acc : N) (bs : list byte) :
  foldl (λ acc b, acc * 256 + Byte.to_N b) acc bs
  = acc * 256 ^ N.of_nat (length bs) + uint bs.
Proof.
  unfold uint. revert acc. induction bs as [|b bs IH]; intros acc.
  - simpl. lia.
  - cbn [foldl length]. rewrite IH, (IH (0 * 256 + Byte.to_N b)).
    rewrite Nat2N.inj_succ, N.pow_succ_r'. lia.
Qed.

Lemma uint_big_endian (k : nat) (n : N) : uint (big_endian k n) = n mod 256 ^ N.of_nat k.
Proof.
  induction k as [|k IH].
  - simpl. by rewrite N.mod_1_r.
  - cbn [big_endian]. unfold uint. cbn [foldl].
    rewrite foldl_uint, IH, length_big_endian, to_N_byte_of_N.
    rewrite Nat2N.inj_succ, N.pow_succ_r'.
    rewrite (N.mul_comm 256), N.Div0.mod_mul_r. lia.
Qed.

Lemma split_exact_app (n : N) (body rest : list byte) :
  n = N.of_nat (length body) → split_exact n (body ++ rest) = Some (body, rest).
Proof.
  intros ->. unfold split_exact. rewrite Nat2N.id, length_app.
  rewrite take_app_length, drop_app_length.
  destruct (N.leb_spec (N.of_nat (length body)) (N.of_nat (length body + length rest)));
    [done | lia].
Qed.

Lemma argument_wide (info : N) (width : nat) (n : N) (rest : list byte) :
  (match info with 24 => Some 1 | 25 => Some 2 | 26 => Some 4 | 27 => Some 8 | _ => None end)
  = Some (N.of_nat width) →
  n < 256 ^ N.of_nat width →
  argument info (big_endian width n ++ rest) = Some (n, rest).
Proof.
  intros Hwidth Hn. unfold argument.
  assert ((info <? 24) = false) as ->.
  { apply N.ltb_ge. destruct info as [|p]; [done |].
    do 5 (destruct p as [p|p|]; try done); lia. }
  rewrite Hwidth. cbn [mbind option_bind].
  rewrite split_exact_app by (by rewrite length_big_endian).
  cbn [mbind option_bind]. by rewrite uint_big_endian, N.mod_small.
Qed.

(** The first byte of a head: three bits of major type, five of
    additional information. *)
Lemma initial_byte (major info : N) :
  major < 8 → info < 32 →
  Byte.to_N (byte_of_N (major * 32 + info)) / 32 = major
  ∧ Byte.to_N (byte_of_N (major * 32 + info)) mod 32 = info.
Proof.
  intros Hmajor Hinfo. rewrite to_N_byte_of_N, (N.mod_small _ 256) by lia. split.
  - rewrite N.div_add_l, N.div_small; lia.
  - rewrite N.add_comm, N.Div0.mod_add. apply N.mod_small; lia.
Qed.

(** A head reads back as its major type and its argument. *)
Lemma head_reads_back (major n : N) (rest : list byte) :
  major < 8 → n < 18446744073709551616 →
  ∃ b tail,
    head major n ++ rest = b :: tail
    ∧ Byte.to_N b / 32 = major
    ∧ argument (Byte.to_N b mod 32) tail = Some (n, rest).
Proof.
  intros Hmajor Hn. unfold head.
  destruct (N.ltb_spec n 24) as [H24|H24];
    [| destruct (N.ltb_spec n 256) as [H8|H8];
       [| destruct (N.ltb_spec n 65536) as [H16|H16];
          [| destruct (N.ltb_spec n 4294967296) as [H32|H32]]]];
    eexists _, _; (split; [reflexivity |]).
  - destruct (initial_byte major n) as [-> ->]; [lia.. |].
    split; [done |]. unfold argument. by rewrite (proj2 (N.ltb_lt _ _) H24).
  - destruct (initial_byte major 24) as [-> ->]; [lia.. |].
    split; [done |]. by apply (argument_wide 24 1).
  - destruct (initial_byte major 25) as [-> ->]; [lia.. |].
    split; [done |]. by apply (argument_wide 25 2).
  - destruct (initial_byte major 26) as [-> ->]; [lia.. |].
    split; [done |]. by apply (argument_wide 26 4).
  - destruct (initial_byte major 27) as [-> ->]; [lia.. |].
    split; [done |]. by apply (argument_wide 27 8).
Qed.

Lemma head_nonempty (major n : N) : (1 ≤ length (head major n))%nat.
Proof. unfold head. repeat case_match; simpl; lia. Qed.

Lemma encode_nonempty (v : jsval) : (1 ≤ length (encode v))%nat.
Proof.
  destruct v as [| |[]|n|s|bs|name|items|props]; cbn [encode]; unfold text;
    repeat case_match; rewrite ?length_app; simpl;
    try pose proof (head_nonempty 0 (Z.to_N n));
    try pose proof (head_nonempty 1 (Z.to_N (-1 - n)));
    try pose proof (head_nonempty 2 (N.of_nat (length bs)));
    try pose proof (head_nonempty 3
          (N.of_nat (length (Stdlib.Strings.String.list_byte_of_string s))));
    try pose proof (head_nonempty 4 (N.of_nat (length items)));
    try pose proof (head_nonempty 5 (N.of_nat (size props)));
    lia.
Qed.

(** The encoding of the items of an array, and of the properties of an
    object in the order [map_to_list] gives them. *)
Local Abbreviation encode_items := (foldr (λ item acc, encode item ++ acc) []).
Local Abbreviation encode_pairs :=
  (foldr (uncurry (λ key value acc, text key ++ encode value ++ acc)) []).

Lemma encode_object (props : object) :
  encode (VObj props)
  = head 5 (N.of_nat (size props)) ++ encode_pairs (map_to_list props).
Proof. cbn [encode]. by rewrite map_fold_foldr. Qed.

Lemma encodable_object (props : object) :
  encodable (VObj props) = true →
  fits (N.of_nat (size props)) = true
  ∧ Forall (λ kv, fits (N.of_nat (length (Stdlib.Strings.String.list_byte_of_string kv.1)))
                  = true
                  ∧ encodable kv.2 = true) (map_to_list props).
Proof.
  cbn [encodable]. rewrite map_fold_foldr. intros [Hsize Hall]%andb_prop.
  split; [done |]. induction (map_to_list props) as [|[key value] l IH].
  - constructor.
  - cbn [foldr uncurry] in Hall. apply andb_prop in Hall as [[Hkey Hvalue]%andb_prop Hl].
    constructor; [done | by apply IH].
Qed.

Lemma length_encode_items (items : list jsval) :
  (length items ≤ length (encode_items items))%nat.
Proof.
  induction items as [|item items IH]; [done |].
  cbn [foldr length]. rewrite length_app. pose proof (encode_nonempty item). lia.
Qed.

Lemma length_encode_item (item : jsval) (items : list jsval) :
  item ∈ items → (length (encode item) ≤ length (encode_items items))%nat.
Proof.
  induction 1 as [item items|item other items _ IH]; cbn [foldr]; rewrite length_app; lia.
Qed.

Lemma length_encode_pairs (l : list (string * jsval)) :
  (length l ≤ length (encode_pairs l))%nat.
Proof.
  induction l as [|[key value] l IH]; [done |].
  cbn [foldr uncurry length]. rewrite !length_app. pose proof (encode_nonempty value). lia.
Qed.

Lemma length_encode_pair (kv : string * jsval) (l : list (string * jsval)) :
  kv ∈ l → (length (encode kv.2) ≤ length (encode_pairs l))%nat.
Proof.
  induction 1 as [[key value] l|kv [key value] l _ IH];
    cbn [foldr uncurry snd]; rewrite !length_app; lia.
Qed.

(** Items that each read back read back in a row. *)
Lemma decode_items_encode (decode : list byte → option (jsval * list byte))
    (items : list jsval) (rest : list byte) :
  (∀ item rest, item ∈ items → decode (encode item ++ rest) = Some (item, rest)) →
  decode_items decode (length items) (encode_items items ++ rest) = Some (items, rest).
Proof.
  induction items as [|item items IH]; intros Hitems; [done |].
  cbn [length decode_items foldr]. rewrite <- (assoc_L (++)).
  rewrite Hitems by left. cbn [mbind option_bind].
  rewrite IH by (intros; apply Hitems; by right). done.
Qed.

(** Pairs with distinct keys that each read back read back into the map they
    list, on top of the properties read before them. *)
Lemma decode_pairs_encode (decode : list byte → option (jsval * list byte))
    (l : list (string * jsval)) (props : object) (rest : list byte) :
  NoDup l.*1 →
  (∀ key value rest, (key, value) ∈ l →
     decode (text key ++ rest) = Some (VStr key, rest)
     ∧ decode (encode value ++ rest) = Some (value, rest)) →
  decode_pairs decode (length l) props (encode_pairs l ++ rest)
  = Some (list_to_map l ∪ props, rest).
Proof.
  revert props. induction l as [|[key value] l IH]; intros props Hkeys Hl.
  - cbn. by rewrite (left_id_L ∅ (∪)).
  - cbn [length decode_pairs foldr uncurry]. rewrite <- !(assoc_L (++)).
    destruct (Hl key value (encode value ++ encode_pairs l ++ rest)) as [-> _]; [left |].
    cbn [mbind option_bind text_key].
    destruct (Hl key value (encode_pairs l ++ rest)) as [_ ->]; [left |].
    cbn [mbind option_bind].
    apply NoDup_cons in Hkeys as [Hkey Hkeys].
    rewrite IH by (done || intros; apply Hl; by right).
    cbn [list_to_map foldr uncurry]. f_equal. f_equal.
    symmetry. rewrite <- insert_union_l. apply insert_union_r.
    by apply not_elem_of_list_to_map_1.
Qed.

(** Reading an item that starts with a head of major type below 7. *)
Lemma decode_item_head (fuel : nat) (major n : N) (rest : list byte) :
  major < 7 → n < 18446744073709551616 →
  decode_item (S fuel) (head major n ++ rest)
  = match major with
    | 0 => Some (VNum (Z.of_N n), rest)
    | 1 => Some (VNum (-1 - Z.of_N n), rest)
    | 2 => '(body, rest) ← split_exact n rest; Some (VBytes body, rest)
    | 3 =>
        '(body, rest) ← split_exact n rest;
        Some (VStr (Stdlib.Strings.String.string_of_list_byte body), rest)
    | 4 =>
        if n <=? N.of_nat (length rest) then
          '(items, rest) ← decode_items (decode_item fuel) (N.to_nat n) rest;
          Some (VArr items, rest)
        else None
    | 5 =>
        if n <=? N.of_nat (length rest) then
          '(props, rest) ← decode_pairs (decode_item fuel) (N.to_nat n) ∅ rest;
          Some (VObj props, rest)
        else None
    | _ => None
    end.
Proof.
  intros Hmajor Hn.
  destruct (head_reads_back major n rest) as (b & tail & -> & Hb & Harg); [lia | done |].
  cbn [decode_item]. cbv zeta. rewrite Hb, Harg.
  destruct (N.eqb_spec major 7) as [->|_]; [lia | done].
Qed.

Lemma decode_text (fuel : nat) (s : string) (rest : list byte) :
  fits (N.of_nat (length (Stdlib.Strings.String.list_byte_of_string s))) = true →
  decode_item (S fuel) (text s ++ rest) = Some (VStr s, rest).
Proof.
  intros Hfits%N.ltb_lt. unfold text. rewrite <- (assoc_L (++)).
  rewrite decode_item_head by (done || lia).
  rewrite split_exact_app by done. cbn [mbind option_bind].
  by rewrite Stdlib.Strings.String.string_of_list_byte_of_string.
Qed.

(** The encoding of a value reads back as the value, and leaves what
    follows it, once the fuel covers its length. *)
Lemma decode_item_encode (fuel : nat) (v : jsval) (rest : list byte) :
  encodable v = true → (length (encode v) ≤ fuel)%nat →
  decode_item fuel (encode v ++ rest) = Some (v, rest).
Proof.
  revert v rest. induction fuel as [|fuel IH]; intros v rest Hv Hfuel.
  { pose proof (encode_nonempty v). lia. }
  destruct v as [| |[]|n|s|bs|name|items|props]; try done.
  - (* VNum *)
    cbn [encodable] in Hv. apply bool_decide_eq_true in Hv. cbn [encode].
    destruct (Z.leb_spec 0 n).
    + rewrite decode_item_head by lia. by rewrite Z2N.id.
    + rewrite decode_item_head by lia. do 2 f_equal. f_equal. lia.
  - (* VStr *)
    by apply decode_text.
  - (* VBytes *)
    cbn [encodable] in Hv. apply N.ltb_lt in Hv. cbn [encode].
    rewrite <- (assoc_L (++)), decode_item_head by (done || lia).
    by rewrite split_exact_app.
  - (* VArr *)
    cbn [encodable] in Hv. apply andb_prop in Hv as [Hlen%N.ltb_lt Hitems].
    rewrite forallb_forall in Hitems.
    cbn [encode] in *. rewrite length_app in Hfuel. rewrite <- (assoc_L (++)).
    pose proof (head_nonempty 4 (N.of_nat (length items))).
    rewrite decode_item_head by (done || lia).
    pose proof (length_encode_items items).
    destruct (N.leb_spec (N.of_nat (length items))
                (N.of_nat (length (encode_items items ++ rest)))) as [_|Hshort];
      [| rewrite length_app in Hshort; lia].
    rewrite Nat2N.id, decode_items_encode; [done |].
    intros item rest' Hitem. apply IH.
    + apply Hitems. by apply list_elem_of_In.
    + pose proof (length_encode_item item items Hitem). lia.
  - (* VObj *)
    apply encodable_object in Hv as [Hsize%N.ltb_lt Hprops].
    rewrite Forall_forall in Hprops.
    rewrite encode_object in *. rewrite length_app in Hfuel. rewrite <- (assoc_L (++)).
    pose proof (head_nonempty 5 (N.of_nat (size props))).
    rewrite decode_item_head by (done || lia).
    pose proof (length_encode_pairs (map_to_list props)) as Hpairs.
    rewrite length_map_to_list in Hpairs.
    destruct (N.leb_spec (N.of_nat (size props))
                (N.of_nat (length (encode_pairs (map_to_list props) ++ rest))))
      as [_|Hshort]; [| rewrite length_app in Hshort; lia].
    rewrite Nat2N.id, <- length_map_to_list, decode_pairs_encode.
    + cbn [mbind option_bind]. by rewrite list_to_map_to_list, (right_id_L ∅ (∪)).
    + apply NoDup_fst_map_to_list.
    + intros key value rest' Hpair. destruct (Hprops _ Hpair) as [Hkey Hvalue]. split.
      * destruct fuel; [| by apply decode_text].
        pose proof (length_encode_pair _ _ Hpair). pose proof (encode_nonempty value).
        simpl in *. lia.
      * apply IH; [done |].
        pose proof (length_encode_pair _ _ Hpair). simpl in *. lia.
Qed.

Lemma decode_all_encode (v : jsval) (fuel : nat) :
  encodable v = true → decode_all (S fuel) (encode v) = Some [v].
Proof.
  intros Hv. pose proof (encode_nonempty v) as Hlen.
  destruct (encode v) as [|b bs] eqn:Hencode; [simpl in Hlen; lia |].
  cbn [decode_all]. rewrite <- Hencode, <- (right_id_L [] (++) (encode v)).
  rewrite decode_item_encode by (done || by rewrite (right_id_L [] (++))).
  cbn [mbind option_bind]. by destruct fuel.
Qed.

(** The reference codec gives back every value it encodes. *)
Lemma codec_round_trip (v : jsval) :
  encodable v = true →
  encodeAsync v = Fulfilled (encode v)
  ∧ Buffer_from (VBytes (encode v)) = Normal (encode v)
  ∧ decodeAll (encode v) = Fulfilled [v].
Proof.
  intros Hv. cbn [encodeAsync decodeAll Buffer_from codec]. rewrite Hv.
  split_and!; [done.. |].
  pose proof (encode_nonempty v) as Hlen.
  destruct (length (encode v)) as [|fuel]; [lia |].
  by rewrite decode_all_encode.
Qed.
End CborRoundTrip.

(** ** The complete payloads *)

Section CompletePayload.
Context {W : Type} {browser : Browser W}.

(** C5.  The complete payload of a registration has the keys of the payload
    plus [attestationObject] and [clientDataJSON], and that of a login the
    keys of the payload plus [credentialId], [authenticatorData],
    [clientDataJSON] and [signature]: no other key, none removed.  Each
    added property is a byte buffer made from the credential, and every
    other property is the payload's own (the merge is shallow).  Both
    payloads are built whenever the fields of the credential convert: the
    callbacks then return the payload with those buffers written in. *)
Theorem complete_payload_keys (payload : object) (credential data : jsval) :
  (register_complete_payload_callback payload credential = Normal data →
     ∃ (complete : object) (attestationObject clientDataJSON : list byte),
       data = VObj complete
       ∧ dom complete = dom payload ∪ {["attestationObject"; "clientDataJSON"]}
       ∧ credential_bytes credential ["response"; "attestationObject"]
         = Normal attestationObject
       ∧ credential_bytes credential ["response"; "clientDataJSON"]
         = Normal clientDataJSON
       ∧ complete !! "attestationObject" = Some (VBytes attestationObject)
       ∧ complete !! "clientDataJSON" = Some (VBytes clientDataJSON)
       ∧ ∀ k, k ∉ ["attestationObject"; "clientDataJSON"] →
              complete !! k = payload !! k)
  ∧ (login_complete_payload_callback payload credential = Normal data →
     ∃ (complete : object)
       (credentialId authenticatorData clientDataJSON signature : list byte),
       data = VObj complete
       ∧ dom complete
         = dom payload
           ∪ {["credentialId"; "authenticatorData"; "clientDataJSON"; "signature"]}
       ∧ credential_bytes credential ["rawId"] = Normal credentialId
       ∧ credential_bytes credential ["response"; "authenticatorData"]
         = Normal authenticatorData
       ∧ credential_bytes credential ["response"; "clientDataJSON"]
         = Normal clientDataJSON
       ∧ credential_bytes credential ["response"; "signature"] = Normal signature
       ∧ complete !! "credentialId" = Some (VBytes credentialId)
       ∧ complete !! "authenticatorData" = Some (VBytes authenticatorData)
       ∧ complete !! "clientDataJSON" = Some (VBytes clientDataJSON)
       ∧ complete !! "signature" = Some (VBytes signature)
       ∧ ∀ k, k ∉ ["credentialId"; "authenticatorData"; "clientDataJSON"; "signature"] →
              complete !! k = payload !! k)
  ∧ (∀ attestationObject clientDataJSON : list byte,
       credential_bytes credential ["response"; "attestationObject"]
       = Normal attestationObject →
       credential_bytes credential ["response"; "clientDataJSON"]
       = Normal clientDataJSON →
       register_complete_payload_callback payload credential
       = Normal (VObj (<["clientDataJSON" := VBytes clientDataJSON]>
                      (<["attestationObject" := VBytes attestationObject]> payload))))
  ∧ (∀ credentialId authenticatorData clientDataJSON signature : list byte,
       credential_bytes credential ["rawId"] = Normal credentialId →
       credential_bytes credential ["response"; "authenticatorData"]
       = Normal authenticatorData →
       credential_bytes credential ["response"; "clientDataJSON"]
       = Normal clientDataJSON →
       credential_bytes credential ["response"; "signature"] = Normal signature →
       login_complete_payload_callback payload credential
       = Normal (VObj (<["signature" := VBytes signature]>
                      (<["clientDataJSON" := VBytes clientDataJSON]>
                      (<["authenticatorData" := VBytes authenticatorData]>
                      (<["credentialId" := VBytes credentialId]> payload)))))).
Proof.
  split_and!; [intros Hcall | intros Hcall | |].
  3, 4: intros *;
    unfold credential_bytes, get_path, register_complete_payload_callback,
      login_complete_payload_callback;
    cbn [mbind completion_bind];
    repeat first
      [ match goal with
        | |- context [mbind _ (get_prop ?v ?k)] =>
            destruct (get_prop v k); cbn [mbind completion_bind];
            [| by intros; discriminate]
        end
      | match goal with
        | |- _ = Normal _ → _ => intros ->; cbn [mbind completion_bind]
        end ];
    reflexivity.
  - unfold register_complete_payload_callback in Hcall.
    repeat first_call Hcall. injection Hcall as <-.
    eexists _, _, _. split; [reflexivity |].
    unfold credential_bytes, get_path. cbn [mbind completion_bind].
    repeat match goal with H : _ = Normal _ |- _ => rewrite H; cbn [mbind completion_bind] end.
    split_and!; try reflexivity.
    all: try (intros k Hk; rewrite !not_elem_of_cons in Hk; destruct_and!;
              by rewrite !lookup_insert_ne).
    all: try (rewrite !dom_insert_L; apply set_eq; intros k;
              rewrite !elem_of_union, !elem_of_singleton; tauto).
    all: by repeat (rewrite lookup_insert_eq || rewrite lookup_insert_ne by done).
  - unfold login_complete_payload_callback in Hcall.
    repeat first_call Hcall. injection Hcall as <-.
    eexists _, _, _, _, _. split; [reflexivity |].
    unfold credential_bytes, get_path. cbn [mbind completion_bind].
    repeat match goal with H : _ = Normal _ |- _ => rewrite H; cbn [mbind completion_bind] end.
    split_and!; try reflexivity.
    all: try (intros k Hk; rewrite !not_elem_of_cons in Hk; destruct_and!;
              by rewrite !lookup_insert_ne).
    all: try (rewrite !dom_insert_L; apply set_eq; intros k;
              rewrite !elem_of_union, !elem_of_singleton; tauto).
    all: by repeat (rewrite lookup_insert_eq || rewrite lookup_insert_ne by done).
Qed.
End CompletePayload.

(** ** The ceremony driver *)

Section CeremonyProperties.
Context {W : Type} {browser : Browser W}.
Variables (payload : object) (success_callback : callback W)
  (failure_callback : failure_callback_t W) (credentials_callback : callback W)
  (complete_context_callback : payload_callback W)
  (beginurl completeurl : string) (begin_failure_code complete_failure_code : Z)
  (ax : transport W).

(** The ceremony run from the world [w], with an empty log. *)
Local Abbreviation ceremony_from w :=
  (webauthn_internal payload success_callback failure_callback credentials_callback
     complete_context_callback beginurl completeurl
     begin_failure_code complete_failure_code ax (initial w)).

(** The body of [webauthn_internal] returns nothing: whatever the arguments
    and the world, the call evaluates to [undefined]. *)
Lemma webauthn_internal_returned (w : W) : returned (ceremony_from w).1 = VUndefined.
Proof. run; reflexivity. Qed.

(** The credentials callback is called at most once in a ceremony. *)
Lemma credentials_called_at_most_once (w : W) :
  (length (credentials_calls (trace (ceremony_from w).2)) ≤ 1)%nat.
Proof. run; cbn; lia. Qed.

(** C1 (what the code does instead).  When the begin request is rejected
    and [failure_callback] returns, the [catch] of line 166 has handled the
    rejection and the chain goes on: [credentials_callback] is called, with
    the value [failure_callback] returned. *)
Theorem begin_failure_reaches_credentials (w w1 w2 : W) (error v : jsval) :
  post ax beginurl (VObj payload) (logged beginurl completeurl w) = (Rejected error, w1) →
  failure_callback error begin_failure_code w1 = (Fulfilled v, w2) →
  ∃ rest,
    trace (ceremony_from w).2
    = [Post beginurl (VObj payload); Failure error begin_failure_code; Credentials v] ++ rest
    ∧ credentials_calls (trace (ceremony_from w).2) = [v].
Proof.
  intros Hbegin Hfailure.
  run; eexists; (split; [reflexivity |]); reflexivity.
Qed.

(** C2.  When the begin request succeeds and the credentials callback
    rejects, nothing reports it: the log of the ceremony holds the begin
    request and the call of the credentials callback and no call of
    [failure_callback], the complete request is never sent, and the chain
    ends rejected with the callback's error, with no handler after it. *)
Theorem credentials_rejection_unreported (w w1 w2 : W) (res opts error : jsval) :
  post ax beginurl (VObj payload) (logged beginurl completeurl w) = (Fulfilled res, w1) →
  get_prop res "data" = Normal opts →
  credentials_callback opts w1 = (Rejected error, w2) →
  trace (ceremony_from w).2 = [Post beginurl (VObj payload); Credentials opts]
  ∧ failure_calls (trace (ceremony_from w).2) = []
  ∧ success_calls (trace (ceremony_from w).2) = []
  ∧ outer_chain (ceremony_from w).1 = Rejected error
  ∧ inner_chain (ceremony_from w).1 = None
  ∧ world (ceremony_from w).2 = w2.
Proof.
  intros Hbegin Hdata Hcredentials.
  run. by repeat split.
Qed.

(** C3 (amended).  When the begin request succeeds with a response whose
    [data] can be read, the credentials callback resolves and the complete
    request succeeds, [success_callback] is called exactly once, with the
    response of the complete endpoint.  [failure_callback] is not called
    when [success_callback] returns: the chain of the complete request ends
    as [success_callback] did, in the world it left.  When
    [success_callback] throws, the [catch] of line 171 calls
    [failure_callback] once, with what was thrown and the complete-phase
    code: the chain ends as that call did, in the world that call left. *)
Theorem success_path (w w1 w2 w3 w4 w5 : W) (res opts auth data res' : jsval)
    (outcome : settled jsval) :
  post ax beginurl (VObj payload) (logged beginurl completeurl w) = (Fulfilled res, w1) →
  get_prop res "data" = Normal opts →
  credentials_callback opts w1 = (Fulfilled auth, w2) →
  complete_context_callback payload auth w2 = (Normal data, w3) →
  post ax completeurl data w3 = (Fulfilled res', w4) →
  success_callback res' w4 = (outcome, w5) →
  success_calls (trace (ceremony_from w).2) = [res']
  ∧ failure_calls (trace (ceremony_from w).2)
    = match outcome with
      | Rejected thrown => [(thrown, complete_failure_code)]
      | _ => []
      end
  ∧ posts (trace (ceremony_from w).2) = [(beginurl, VObj payload); (completeurl, data)]
  ∧ outer_chain (ceremony_from w).1 = Fulfilled VUndefined
  ∧ match outcome with
    | Rejected thrown =>
        inner_chain (ceremony_from w).1
        = Some (failure_callback thrown complete_failure_code w5).1
        ∧ world (ceremony_from w).2 = (failure_callback thrown complete_failure_code w5).2
    | _ =>
        inner_chain (ceremony_from w).1 = Some outcome
        ∧ world (ceremony_from w).2 = w5
    end.
Proof.
  intros Hbegin Hdata Hcredentials Hcontext Hcomplete Hsuccess.
  run; by repeat split.
Qed.

(** C4.  When the complete request is rejected, after a begin request that
    succeeded and a credentials callback that resolved, [failure_callback]
    is called exactly once, with the error of the request and the
    complete-phase code, and [success_callback] is not called: the chain of
    the complete request ends as that call of [failure_callback] did, in
    the world that call left. *)
Theorem complete_failure_reported (w w1 w2 w3 w4 : W) (res opts auth data error : jsval) :
  post ax beginurl (VObj payload) (logged beginurl completeurl w) = (Fulfilled res, w1) →
  get_prop res "data" = Normal opts →
  credentials_callback opts w1 = (Fulfilled auth, w2) →
  complete_context_callback payload auth w2 = (Normal data, w3) →
  post ax completeurl data w3 = (Rejected error, w4) →
  failure_calls (trace (ceremony_from w).2) = [(error, complete_failure_code)]
  ∧ success_calls (trace (ceremony_from w).2) = []
  ∧ trace (ceremony_from w).2
    = [Post beginurl (VObj payload); Credentials opts; Post completeurl data;
       Failure error complete_failure_code]
  ∧ outer_chain (ceremony_from w).1 = Fulfilled VUndefined
  ∧ inner_chain (ceremony_from w).1
    = Some (failure_callback error complete_failure_code w4).1
  ∧ world (ceremony_from w).2 = (failure_callback error complete_failure_code w4).2.
Proof.
  intros Hbegin Hdata Hcredentials Hcontext Hcomplete.
  run; by repeat split.
Qed.
End CeremonyProperties.

(** ** The entry points *)

(** C8 (what the code does instead).  [webauthn_login] and
    [webauthn_register] return what [webauthn_internal] returns, and its body
    has no [return]: both evaluate to [undefined], not to the promise of the
    ceremony. *)
Theorem entry_points_return_undefined {W : Type} {browser : Browser W}
    (axios_cbor : transport W) (payload : object) (success_callback : callback W)
    (failure_callback : option (failure_callback_t W))
    (beginurl completeurl : option string) (ax : option (transport W)) (w : W) :
  returned (webauthn_login axios_cbor payload success_callback failure_callback
              beginurl completeurl ax (initial w)).1 = VUndefined
  ∧ returned (webauthn_register axios_cbor payload success_callback failure_callback
                beginurl completeurl ax (initial w)).1 = VUndefined.
Proof. split; apply webauthn_internal_returned. Qed.

(** ** The properties on the reference host *)

Section Examples.
Import Cbor Reference.

Lemma begin_failure_reaches_credentials_witness :
  ∃ rest,
    trace register_begin_400.2
    = [Post register_begin (VObj alice);
       Failure status_400 WEBAUTHN_REGISTER_FAIL_BEGIN;
       Credentials VUndefined] ++ rest
    ∧ credentials_calls (trace register_begin_400.2) = [VUndefined].
Proof.
  eapply (begin_failure_reaches_credentials alice success
            register_default_failure_callback navigator_credentials_create _
            register_begin "/api/auth/register/" _ _ _ [] _ _ status_400 VUndefined);
    reflexivity.
Defined.

(** After a begin request that failed, a credentials callback that resolves
    lets the complete request go out: when it fails too, [failure_callback]
    has been called twice in one ceremony. *)
Example begin_failure_then_complete_failure :
  failure_calls (trace register_refused_twice.2)
  = [(status_400, WEBAUTHN_REGISTER_FAIL_BEGIN); (status_500, WEBAUTHN_REGISTER_FAIL_COMPLETE)]
  ∧ posts (trace register_refused_twice.2)
    = [(register_begin, VObj alice); ("/api/auth/register/", alice_complete)].
Proof. vm_compute. by split. Qed.

Lemma credentials_rejection_unreported_witness :
  trace login_prompt_dismissed.2 = [Post login_begin (VObj bob); Credentials options]
  ∧ failure_calls (trace login_prompt_dismissed.2) = []
  ∧ success_calls (trace login_prompt_dismissed.2) = []
  ∧ outer_chain login_prompt_dismissed.1 = Rejected NotAllowedError
  ∧ inner_chain login_prompt_dismissed.1 = None
  ∧ world login_prompt_dismissed.2 = [banner login_begin login_complete].
Proof.
  eapply (credentials_rejection_unreported bob success failure prompt_dismissed _
            login_begin login_complete _ _ _ [] _ _ challenge options NotAllowedError);
    reflexivity.
Defined.

Lemma success_path_witness :
  (success_calls (trace (register_accepted success).2) = [done]
   ∧ failure_calls (trace (register_accepted success).2) = []
   ∧ posts (trace (register_accepted success).2)
     = [(register_begin, VObj alice); ("/api/auth/register/", alice_complete)]
   ∧ outer_chain (register_accepted success).1 = Fulfilled VUndefined
   ∧ inner_chain (register_accepted success).1 = Some (Fulfilled VUndefined)
   ∧ world (register_accepted success).2
     = [banner register_begin "/api/auth/register/"; [VStr "success"; done]])
  ∧ (success_calls (trace (register_accepted success_throws).2) = [done]
     ∧ failure_calls (trace (register_accepted success_throws).2)
       = [(broken, WEBAUTHN_REGISTER_FAIL_COMPLETE)]
     ∧ posts (trace (register_accepted success_throws).2)
       = [(register_begin, VObj alice); ("/api/auth/register/", alice_complete)]
     ∧ outer_chain (register_accepted success_throws).1 = Fulfilled VUndefined
     ∧ inner_chain (register_accepted success_throws).1 = Some (Fulfilled VUndefined)
     ∧ world (register_accepted success_throws).2
       = [banner register_begin "/api/auth/register/";
          [VStr "failure"; VNum WEBAUTHN_REGISTER_FAIL_COMPLETE; broken]]).
Proof.
  split.
  - eapply (success_path alice success failure navigator_credentials_create _
              register_begin "/api/auth/register/" _ _ _ [] _ _ _ _ _
              challenge options attestation alice_complete done (Fulfilled VUndefined));
      reflexivity.
  - apply (success_path alice success_throws failure navigator_credentials_create
             (λ payload attestation w,
                (register_complete_payload_callback payload attestation, w))
             register_begin "/api/auth/register/"
             WEBAUTHN_REGISTER_FAIL_BEGIN WEBAUTHN_REGISTER_FAIL_COMPLETE
             (server register_begin (Fulfilled challenge) (Fulfilled done)) []
             [banner register_begin "/api/auth/register/"]
             [banner register_begin "/api/auth/register/"]
             [banner register_begin "/api/auth/register/"]
             [banner register_begin "/api/auth/register/"]
             [banner register_begin "/api/auth/register/"]
             challenge options attestation alice_complete done (Rejected broken));
      reflexivity.
Defined.

(** C3 (counterexample).  Both requests succeed and the credential is
    created, [success_callback] is called once with the response of the
    complete endpoint and throws: [failure_callback] is called, with the
    complete-phase code of the registration. *)
Lemma success_path_counterexample :
  post (server register_begin (Fulfilled challenge) (Fulfilled done))
    register_begin (VObj alice) [] = (Fulfilled challenge, [])
  ∧ navigator_credentials_create options [] = (Fulfilled attestation, [])
  ∧ post (server register_begin (Fulfilled challenge) (Fulfilled done))
      "/api/auth/register/" alice_complete [] = (Fulfilled done, [])
  ∧ success_calls (trace (register_accepted success_throws).2) = [done]
  ∧ failure_calls (trace (register_accepted success_throws).2)
    = [(broken, WEBAUTHN_REGISTER_FAIL_COMPLETE)].
Proof. vm_compute. by repeat split. Qed.

Lemma complete_failure_reported_witness :
  failure_calls (trace login_complete_500.2) = [(status_500, WEBAUTHN_LOGIN_FAIL_COMPLETE)]
  ∧ success_calls (trace login_complete_500.2) = []
  ∧ trace login_complete_500.2
    = [Post login_begin (VObj bob); Credentials options;
       Post login_complete
         (VObj (<["signature" := VBytes [x04]]>
               (<["clientDataJSON" := VBytes [x0c]]>
               (<["authenticatorData" := VBytes [x02; x03]]>
               (<["credentialId" := VBytes [x01]]> bob)))));
       Failure status_500 WEBAUTHN_LOGIN_FAIL_COMPLETE]
  ∧ outer_chain login_complete_500.1 = Fulfilled VUndefined
  ∧ inner_chain login_complete_500.1 = Some (Fulfilled VUndefined)
  ∧ world login_complete_500.2
    = [banner login_begin login_complete;
       [VStr "failure"; VNum WEBAUTHN_LOGIN_FAIL_COMPLETE; status_500]].
Proof.
  apply (complete_failure_reported bob success failure navigator_credentials_get
           login_payload_callback login_begin login_complete
           WEBAUTHN_LOGIN_FAIL_BEGIN WEBAUTHN_LOGIN_FAIL_COMPLETE
           (server login_begin (Fulfilled challenge) (Rejected status_500)) []
           [banner login_begin login_complete] [banner login_begin login_complete]
           [banner login_begin login_complete] [banner login_begin login_complete]
           challenge options assertion bob_complete status_500);
    reflexivity.
Defined.

(** The scenario of the registration of [alice]: the complete payload is
    [{username: "alice", attestationObject: <0a 0b>, clientDataJSON: <0c>}];
    and the login of [bob], whose complete payload carries the four buffers
    of the assertion. *)
Lemma complete_payload_keys_witness :
  (register_complete_payload_callback alice attestation = Normal alice_complete
   ∧ ∃ (complete : object) (attestationObject clientDataJSON : list byte),
       alice_complete = VObj complete
       ∧ dom complete = dom alice ∪ {["attestationObject"; "clientDataJSON"]}
       ∧ credential_bytes attestation ["response"; "attestationObject"]
         = Normal attestationObject
       ∧ credential_bytes attestation ["response"; "clientDataJSON"]
         = Normal clientDataJSON
       ∧ complete !! "attestationObject" = Some (VBytes attestationObject)
       ∧ complete !! "clientDataJSON" = Some (VBytes clientDataJSON)
       ∧ ∀ k, k ∉ ["attestationObject"; "clientDataJSON"] →
              complete !! k = alice !! k)
  ∧ (login_complete_payload_callback bob assertion = Normal bob_complete
     ∧ ∃ (complete : object)
         (credentialId authenticatorData clientDataJSON signature : list byte),
         bob_complete = VObj complete
         ∧ dom complete
           = dom bob
             ∪ {["credentialId"; "authenticatorData"; "clientDataJSON"; "signature"]}
         ∧ credential_bytes assertion ["rawId"] = Normal credentialId
         ∧ credential_bytes assertion ["response"; "authenticatorData"]
           = Normal authenticatorData
         ∧ credential_bytes assertion ["response"; "clientDataJSON"]
           = Normal clientDataJSON
         ∧ credential_bytes assertion ["response"; "signature"] = Normal signature
         ∧ complete !! "credentialId" = Some (VBytes credentialId)
         ∧ complete !! "authenticatorData" = Some (VBytes authenticatorData)
         ∧ complete !! "clientDataJSON" = Some (VBytes clientDataJSON)
         ∧ complete !! "signature" = Some (VBytes signature)
         ∧ ∀ k, k ∉ ["credentialId"; "authenticatorData"; "clientDataJSON"; "signature"] →
                complete !! k = bob !! k).
Proof.
  pose proof (complete_payload_keys alice attestation alice_complete)
    as (Hregister & _ & Hregister_built & _).
  pose proof (complete_payload_keys bob assertion bob_complete)
    as (_ & Hlogin & _ & Hlogin_built).
  assert (register_complete_payload_callback alice attestation = Normal alice_complete)
    as Halice by (by apply (Hregister_built [x0a; x0b] [x0c])).
  assert (login_complete_payload_callback bob assertion = Normal bob_complete)
    as Hbob by (by apply (Hlogin_built [x01] [x02; x03] [x0c] [x04])).
  split; (split; [assumption |]); [by apply Hregister | by apply Hlogin].
Defined.

Lemma cborRequestInterceptor_spec_witness :
  (content_type request = Normal (VStr application_cbor)
   ∧ ∃ request',
       cborRequestInterceptor request = Fulfilled request'
       ∧ request' !! "data" = Some (VBytes (encode (VObj bob)))
       ∧ request' !! "responseType" = Some (VStr "arraybuffer")
       ∧ ∀ k, k ≠ "data" → k ≠ "responseType" → request' !! k = request !! k)
  ∧ content_type json_request = Normal (VStr "application/json")
  ∧ cborRequestInterceptor json_request = Fulfilled json_request.
Proof.
  split_and!; [reflexivity | | reflexivity |].
  - apply (proj1 (cborRequestInterceptor_spec request (VStr application_cbor) eq_refl)
             eq_refl).
    reflexivity.
  - by apply (proj2 (cborRequestInterceptor_spec json_request (VStr "application/json")
                       eq_refl)).
Defined.

Lemma cborResponseInterceptor_spec_witness :
  (decodeAll two_items = Fulfilled [VObj alice; VNull]
   ∧ cborResponseInterceptor (response (VBytes two_items))
     = Fulfilled (<["data" := VObj alice]> (response (VBytes two_items))))
  ∧ cborResponseInterceptor (json_response (VStr "{}")) = Fulfilled (json_response (VStr "{}")).
Proof.
  split_and!; [vm_compute; reflexivity | |].
  - eapply (proj1 (cborResponseInterceptor_spec (response (VBytes two_items))
                     (VStr application_cbor) eq_refl)
              eq_refl two_items _ [VNull]).
    + reflexivity.
    + vm_compute. reflexivity.
  - by apply (proj2 (cborResponseInterceptor_spec (json_response (VStr "{}"))
                       (VStr "application/json") eq_refl)).
Defined.

Lemma cborResponseInterceptor_no_item_witness :
  decodeAll [] = Fulfilled []
  ∧ cborResponseInterceptor (response (VBytes []))
    = Fulfilled (<["data" := VUndefined]> (response (VBytes []))).
Proof.
  split; [reflexivity |].
  by apply (cborResponseInterceptor_no_item (response (VBytes [])) []).
Defined.


End Examples.

(** * Further properties *)

(** ** The interceptors at the edges *)

Section InterceptorEdges.
Context {codec : Codec}.

(** Reading the content-type of a message without headers throws. *)
Lemma content_type_nullish (message : object) :
  nullish (prop message "headers") → content_type message = Throw TypeError.
Proof. unfold content_type. by intros [-> | ->]. Qed.

(** Headers without a [content-type] property read as [undefined]. *)
Lemma content_type_missing (message headers : object) :
  message !! "headers" = Some (VObj headers) → headers !! "content-type" = None →
  content_type message = Normal VUndefined.
Proof. unfold content_type, prop. intros -> Hct. cbn. unfold prop. by rewrite Hct. Qed.

(** X1.  A message whose [headers] property is missing, [undefined] or
    [null] is not passed through: reading its content-type throws, and both
    interceptors reject with the [TypeError]. *)
Theorem interceptors_need_headers (message : object) :
  nullish (prop message "headers") →
  cborRequestInterceptor message = Rejected TypeError
  ∧ cborResponseInterceptor message = Rejected TypeError.
Proof.
  intros Hheaders%content_type_nullish.
  unfold cborRequestInterceptor, cborResponseInterceptor. by rewrite Hheaders.
Qed.

(** X2.  The header is looked up under the exact name [content-type]: a
    message whose headers have no property of that name, whatever else they
    hold, comes back from both interceptors as it is. *)
Theorem interceptors_skip_without_content_type (message headers : object) :
  message !! "headers" = Some (VObj headers) →
  headers !! "content-type" = None →
  cborRequestInterceptor message = Fulfilled message
  ∧ cborResponseInterceptor message = Fulfilled message.
Proof.
  intros Hheaders Hct. pose proof (content_type_missing _ _ Hheaders Hct) as Hmissing.
  split.
  - by apply (cborRequestInterceptor_other message VUndefined).
  - by apply (cborResponseInterceptor_other message VUndefined).
Qed.

(** X3.  The request interceptor rejects in two cases only, and with the
    error it was given: the content-type cannot be read, or the request is
    marked [application/cbor] and [encodeAsync] rejects.  It catches no
    error and raises none of its own. *)
Theorem cborRequestInterceptor_rejects_iff (request : object) (e : jsval) :
  cborRequestInterceptor request = Rejected e
  ↔ content_type request = Throw e
    ∨ (content_type request = Normal (VStr application_cbor)
       ∧ encodeAsync (prop request "data") = Rejected e).
Proof.
  unfold cborRequestInterceptor.
  destruct (content_type request) as [ct|thrown].
  - destruct (strict_eq_string ct application_cbor) eqn:Hct.
    + apply strict_eq_string_true in Hct as ->.
      destruct (encodeAsync (prop request "data")) as [encoded|e'|]; split;
        try discriminate; try (by intros [[=] | [_ [=]]]).
      * intros [= ->]. by right.
      * by intros [[=] | [_ [= ->]]].
    + apply strict_eq_string_false in Hct. split; [discriminate |].
      by intros [[=] | [[= ->] _]].
  - split; [intros [= ->]; by left | by intros [[= ->] | [[=] _]]].
Qed.

(** X4.  The response interceptor rejects in three cases only, and with the
    error it was given: the content-type cannot be read, or the response is
    marked [application/cbor] and either [Buffer.from] throws on the body or
    [decodeAll] rejects. *)
Theorem cborResponseInterceptor_rejects_iff (response : object) (e : jsval) :
  cborResponseInterceptor response = Rejected e
  ↔ content_type response = Throw e
    ∨ (content_type response = Normal (VStr application_cbor)
       ∧ (Buffer_from (prop response "data") = Throw e
          ∨ ∃ buffer, Buffer_from (prop response "data") = Normal buffer
                      ∧ decodeAll buffer = Rejected e)).
Proof.
  unfold cborResponseInterceptor.
  destruct (content_type response) as [ct|thrown].
  - destruct (strict_eq_string ct application_cbor) eqn:Hct.
    + apply strict_eq_string_true in Hct as ->.
      destruct (Buffer_from (prop response "data")) as [buffer|thrown].
      * destruct (decodeAll buffer) as [items|e'|] eqn:Hdecode; split;
          try discriminate;
          try (intros [[=] | [_ [[=] | (buffer' & [= <-] & Hdecode')]]]; congruence).
        intros [= ->]. right. split; [done |]. right. by exists buffer.
      * split.
        -- intros [= ->]. right. split; [done |]. by left.
        -- by intros [[=] | [_ [[= ->] | (buffer' & [=] & _)]]].
    + apply strict_eq_string_false in Hct. split; [discriminate |].
      by intros [[=] | [[= ->] _]].
  - split; [intros [= ->]; by left | by intros [[= ->] | [[=] _]]].
Qed.

(** X5.  Whatever the content-type, a message that comes back from an
    interceptor has its headers, and so its content-type, as before: the
    request interceptor writes [data] and [responseType] only, the response
    interceptor [data] only. *)
Theorem interceptors_frame (message message' : object) :
  (cborRequestInterceptor message = Fulfilled message' →
   (∀ k, k ≠ "data" → k ≠ "responseType" → message' !! k = message !! k)
   ∧ content_type message' = content_type message)
  ∧ (cborResponseInterceptor message = Fulfilled message' →
     (∀ k, k ≠ "data" → message' !! k = message !! k)
     ∧ content_type message' = content_type message).
Proof.
  assert (∀ m : object, m !! "headers" = message !! "headers" →
                        content_type m = content_type message) as Hheaders.
  { intros m Hm. unfold content_type, prop. by rewrite Hm. }
  unfold cborRequestInterceptor, cborResponseInterceptor.
  split; intros Hrun; repeat case_match; simplify_eq; try done.
  - split; [| by rewrite Hheaders by (by rewrite !lookup_insert_ne)].
    intros k Hdata Htype. by rewrite !lookup_insert_ne.
  - split; [| by rewrite Hheaders by (by rewrite lookup_insert_ne)].
    intros k Hdata. by rewrite lookup_insert_ne.
Qed.

(** X6.  The request interceptor does not mark what it has encoded: run on
    its own result, it encodes the encoded bytes once more, and the second
    result is the first one only if the codec encodes that buffer as
    itself. *)
Theorem cborRequestInterceptor_twice (request : object) (once twice : list byte) :
  content_type request = Normal (VStr application_cbor) →
  encodeAsync (prop request "data") = Fulfilled once →
  encodeAsync (VBytes once) = Fulfilled twice →
  ∃ request',
    cborRequestInterceptor request = Fulfilled request'
    ∧ request' !! "data" = Some (VBytes once)
    ∧ ∃ request'',
        cborRequestInterceptor request' = Fulfilled request''
        ∧ request'' !! "data" = Some (VBytes twice)
        ∧ (request'' = request' ↔ twice = once).
Proof.
  intros Hct Honce Htwice.
  rewrite (cborRequestInterceptor_marker _ Hct), Honce.
  eexists. split; [done |]. split; [by rewrite lookup_insert_ne, lookup_insert_eq |].
  rewrite cborRequestInterceptor_marker.
  - assert (prop (<["responseType" := VStr "arraybuffer"]>
                    (<["data" := VBytes once]> request)) "data" = VBytes once) as ->.
    { unfold prop. by rewrite lookup_insert_ne, lookup_insert_eq. }
    rewrite Htwice. eexists. split; [done |].
    split; [by rewrite lookup_insert_ne, lookup_insert_eq |]. split.
    + intros Hsame.
      apply (f_equal (λ message : object, message !! "data")) in Hsame.
      rewrite !(lookup_insert_ne _ "responseType"), !lookup_insert_eq in Hsame by done.
      by injection Hsame.
    + intros ->. apply map_eq. intros k.
      destruct (decide (k = "responseType")) as [-> | Htype];
        [by rewrite !lookup_insert_eq |].
      rewrite !(lookup_insert_ne _ "responseType") by done.
      destruct (decide (k = "data")) as [-> | Hdata];
        [by rewrite !lookup_insert_eq |].
      by rewrite !lookup_insert_ne.
  - unfold content_type, prop in *. by rewrite !lookup_insert_ne.
Qed.
End InterceptorEdges.

(** ** The order and the number of the calls *)

Section CeremonyInvariants.
Context {W : Type} {browser : Browser W}.
Variables (payload : object) (success_callback : callback W)
  (failure_callback : failure_callback_t W) (credentials_callback : callback W)
  (complete_context_callback : payload_callback W)
  (beginurl completeurl : string) (begin_failure_code complete_failure_code : Z)
  (ax : transport W).

Local Abbreviation ceremony_from w :=
  (webauthn_internal payload success_callback failure_callback credentials_callback
     complete_context_callback beginurl completeurl
     begin_failure_code complete_failure_code ax (initial w)).

(** X7.  The calls of a ceremony come in one order, whatever the server,
    the browser and the callbacks do: the begin request with the payload
    first, then at most one call of [failure_callback] with the begin code,
    then the credentials callback, then the complete request, then
    [success_callback] or [failure_callback] with the complete code, the
    second possibly after the first. *)
Theorem ceremony_order (w : W) :
  ceremony_log beginurl payload begin_failure_code completeurl complete_failure_code
    (trace (ceremony_from w).2).
Proof. run; eauto 4 using ceremony_log, credentials_log, complete_log. Qed.

(** X8.  Nothing is retried: a ceremony sends at most two requests and
    calls the credentials callback and [success_callback] at most once each,
    and [failure_callback] at most twice. *)
Theorem ceremony_call_bounds (w : W) :
  (length (posts (trace (ceremony_from w).2)) ≤ 2
   ∧ length (credentials_calls (trace (ceremony_from w).2)) ≤ 1
   ∧ length (success_calls (trace (ceremony_from w).2)) ≤ 1
   ∧ length (failure_calls (trace (ceremony_from w).2)) ≤ 2)%nat.
Proof. run; cbn; lia. Qed.

(** X9.  When the begin request succeeds, the credentials callback is the
    next call, and it receives the [data] of the response as it is
    ([undefined] when the response has none); it is called with nothing
    else.  When the callback rejects or never settles, the chain ends as the
    callback did, in the world it left. *)
Theorem credentials_receive_begin_data (w w1 : W) (res opts : jsval) :
  post ax beginurl (VObj payload) (logged beginurl completeurl w) = (Fulfilled res, w1) →
  get_prop res "data" = Normal opts →
  credentials_calls (trace (ceremony_from w).2) = [opts]
  ∧ (∃ rest,
       trace (ceremony_from w).2 = [Post beginurl (VObj payload); Credentials opts] ++ rest)
  ∧ ∀ outcome w2,
      credentials_callback opts w1 = (outcome, w2) →
      (∀ auth, outcome ≠ Fulfilled auth) →
      outer_chain (ceremony_from w).1 = outcome ∧ world (ceremony_from w).2 = w2.
Proof.
  intros Hbegin Hdata. split_and!.
  - run; reflexivity.
  - run; eexists; reflexivity.
  - intros outcome w2 Hcredentials Hunsettled.
    destruct outcome as [auth| |]; [by destruct (Hunsettled auth) | |]; by run.
Qed.

(** X10.  The [catch] of line 166 also covers the handler of line 165: when
    the begin request resolves with [undefined] or [null], reading [data]
    throws and [failure_callback] is called with the [TypeError] and the
    begin code.  When that call throws or never settles, the chain ends as
    the call did, in the world it left. *)
Theorem begin_response_unreadable (w w1 : W) (res : jsval) :
  post ax beginurl (VObj payload) (logged beginurl completeurl w) = (Fulfilled res, w1) →
  nullish res →
  (∃ rest,
     trace (ceremony_from w).2
     = [Post beginurl (VObj payload); Failure TypeError begin_failure_code] ++ rest)
  ∧ ∀ outcome w2,
      failure_callback TypeError begin_failure_code w1 = (outcome, w2) →
      (∀ v, outcome ≠ Fulfilled v) →
      trace (ceremony_from w).2
      = [Post beginurl (VObj payload); Failure TypeError begin_failure_code]
      ∧ outer_chain (ceremony_from w).1 = outcome
      ∧ world (ceremony_from w).2 = w2.
Proof.
  intros Hbegin Hres.
  assert (get_prop res "data" = Throw TypeError) as Hdata
    by (by destruct Hres as [-> | ->]).
  split.
  - run; eexists; reflexivity.
  - intros outcome w2 Hfailure Hunsettled.
    destruct outcome as [v| |]; [by destruct (Hunsettled v) | |]; by run.
Qed.

(** X11.  After a begin request that failed, the ceremony stops when
    [failure_callback] throws: the credentials callback is not called, no
    request follows, and the chain ends rejected with what was thrown. *)
Theorem begin_failure_stops_when_callback_throws (w w1 w2 : W) (error thrown : jsval) :
  post ax beginurl (VObj payload) (logged beginurl completeurl w) = (Rejected error, w1) →
  failure_callback error begin_failure_code w1 = (Rejected thrown, w2) →
  trace (ceremony_from w).2
  = [Post beginurl (VObj payload); Failure error begin_failure_code]
  ∧ outer_chain (ceremony_from w).1 = Rejected thrown
  ∧ inner_chain (ceremony_from w).1 = None.
Proof. intros Hbegin Hfailure. run. by repeat split. Qed.

(** X12.  When the complete payload callback throws (as the two of this
    module do on a [null] credential), the complete request is never sent
    and neither [success_callback] nor [failure_callback] is called: the
    chain ends rejected with what was thrown. *)
Theorem complete_payload_failure_unreported (w w1 w2 w3 : W)
    (res opts auth thrown : jsval) :
  post ax beginurl (VObj payload) (logged beginurl completeurl w) = (Fulfilled res, w1) →
  get_prop res "data" = Normal opts →
  credentials_callback opts w1 = (Fulfilled auth, w2) →
  complete_context_callback payload auth w2 = (Throw thrown, w3) →
  trace (ceremony_from w).2 = [Post beginurl (VObj payload); Credentials opts]
  ∧ outer_chain (ceremony_from w).1 = Rejected thrown
  ∧ inner_chain (ceremony_from w).1 = None.
Proof. intros Hbegin Hdata Hcredentials Hcontext. run. by repeat split. Qed.

(** X13.  The last handler returns without the chain of the complete
    request: once that request is sent, the outer chain is fulfilled with
    [undefined], whatever becomes of the request and of the callbacks
    after it. *)
Theorem outer_chain_does_not_wait (w w1 w2 w3 : W) (res opts auth data : jsval) :
  post ax beginurl (VObj payload) (logged beginurl completeurl w) = (Fulfilled res, w1) →
  get_prop res "data" = Normal opts →
  credentials_callback opts w1 = (Fulfilled auth, w2) →
  complete_context_callback payload auth w2 = (Normal data, w3) →
  outer_chain (ceremony_from w).1 = Fulfilled VUndefined
  ∧ ∃ inner, inner_chain (ceremony_from w).1 = Some inner.
Proof.
  intros Hbegin Hdata Hcredentials Hcontext.
  run; (split; [reflexivity |]); eexists; reflexivity.
Qed.

(** X14.  The driver sets no time limit: when the begin request, the
    credentials callback or the complete request never settles, the ceremony
    makes no further call, and neither callback of the caller is called for
    it. *)
Theorem unsettled_calls_are_not_reported (w : W) :
  (∀ w1,
     post ax beginurl (VObj payload) (logged beginurl completeurl w) = (Pending, w1) →
     trace (ceremony_from w).2 = [Post beginurl (VObj payload)])
  ∧ (∀ w1 w2 res opts,
       post ax beginurl (VObj payload) (logged beginurl completeurl w) = (Fulfilled res, w1) →
       get_prop res "data" = Normal opts →
       credentials_callback opts w1 = (Pending, w2) →
       trace (ceremony_from w).2 = [Post beginurl (VObj payload); Credentials opts])
  ∧ (∀ w1 w2 w3 w4 res opts auth data,
       post ax beginurl (VObj payload) (logged beginurl completeurl w) = (Fulfilled res, w1) →
       get_prop res "data" = Normal opts →
       credentials_callback opts w1 = (Fulfilled auth, w2) →
       complete_context_callback payload auth w2 = (Normal data, w3) →
       post ax completeurl data w3 = (Pending, w4) →
       trace (ceremony_from w).2
       = [Post beginurl (VObj payload); Credentials opts; Post completeurl data]).
Proof. split_and!; intros; run; reflexivity. Qed.

(** [failure_callback] is called with the two codes the driver was given
    and no other. *)
Lemma failure_codes_reported (w : W) :
  Forall (λ call, call.2 = begin_failure_code ∨ call.2 = complete_failure_code)
    (failure_calls (trace (ceremony_from w).2)).
Proof.
  run; cbn; repeat first [apply Forall_nil_2 | apply Forall_cons_2; [cbn; auto |]].
Qed.
End CeremonyInvariants.

(** ** The entry points and their defaults *)

Section EntryPoints.
Context {W : Type} {browser : Browser W}.
Variables (axios_cbor : transport W) (payload : object) (success_callback : callback W)
  (failure_callback : option (failure_callback_t W))
  (beginurl completeurl : option string) (ax : option (transport W)).

(** X15.  Whatever happens, [webauthn_login] reports
    [WEBAUTHN_LOGIN_FAIL_BEGIN] or [WEBAUTHN_LOGIN_FAIL_COMPLETE] only, and
    [webauthn_register] [WEBAUTHN_REGISTER_FAIL_BEGIN] or
    [WEBAUTHN_REGISTER_FAIL_COMPLETE] only. *)
Theorem entry_points_failure_codes (w : W) :
  Forall (λ call, call.2 = WEBAUTHN_LOGIN_FAIL_BEGIN ∨ call.2 = WEBAUTHN_LOGIN_FAIL_COMPLETE)
    (failure_calls
       (trace (webauthn_login axios_cbor payload success_callback failure_callback
                 beginurl completeurl ax (initial w)).2))
  ∧ Forall (λ call, call.2 = WEBAUTHN_REGISTER_FAIL_BEGIN
                    ∨ call.2 = WEBAUTHN_REGISTER_FAIL_COMPLETE)
      (failure_calls
         (trace (webauthn_register axios_cbor payload success_callback failure_callback
                   beginurl completeurl ax (initial w)).2)).
Proof. split; apply failure_codes_reported. Qed.

(** X16.  The two requests of [webauthn_login]: the payload goes to the
    begin url, the options of the answer go to [navigator.credentials.get],
    and the complete url receives the payload with the four buffers of the
    assertion.  The urls and the client are the arguments when given, and
    [/api/auth/login/begin/], [/api/auth/login/] and [axios_cbor]
    otherwise.  What the complete url answers decides the inner chain and
    the world: [success_callback] is applied to a response,
    [failure_callback], or the default one, to a rejection with
    [WEBAUTHN_LOGIN_FAIL_COMPLETE], and nothing to a request that stays
    pending. *)
Theorem webauthn_login_requests (w w1 w2 : W) (res opts assertion data : jsval) :
  post (default axios_cbor ax) (default "/api/auth/login/begin/" beginurl) (VObj payload)
    (logged (default "/api/auth/login/begin/" beginurl)
       (default "/api/auth/login/" completeurl) w)
  = (Fulfilled res, w1) →
  get_prop res "data" = Normal opts →
  navigator_credentials_get opts w1 = (Fulfilled assertion, w2) →
  login_complete_payload_callback payload assertion = Normal data →
  posts (trace (webauthn_login axios_cbor payload success_callback failure_callback
                  beginurl completeurl ax (initial w)).2)
  = [(default "/api/auth/login/begin/" beginurl, VObj payload);
     (default "/api/auth/login/" completeurl, data)]
  ∧ ∀ outcome w3,
      post (default axios_cbor ax) (default "/api/auth/login/" completeurl) data w2
      = (outcome, w3) →
      match outcome with
      | Fulfilled answer =>
          (∀ thrown, (success_callback answer w3).1 ≠ Rejected thrown) →
          inner_chain (webauthn_login axios_cbor payload success_callback failure_callback
                         beginurl completeurl ax (initial w)).1
          = Some (success_callback answer w3).1
          ∧ world (webauthn_login axios_cbor payload success_callback failure_callback
                     beginurl completeurl ax (initial w)).2
            = (success_callback answer w3).2
      | Rejected error =>
          inner_chain (webauthn_login axios_cbor payload success_callback failure_callback
                         beginurl completeurl ax (initial w)).1
          = Some (default login_default_failure_callback failure_callback error
                    WEBAUTHN_LOGIN_FAIL_COMPLETE w3).1
          ∧ world (webauthn_login axios_cbor payload success_callback failure_callback
                     beginurl completeurl ax (initial w)).2
            = (default login_default_failure_callback failure_callback error
                 WEBAUTHN_LOGIN_FAIL_COMPLETE w3).2
      | Pending =>
          inner_chain (webauthn_login axios_cbor payload success_callback failure_callback
                         beginurl completeurl ax (initial w)).1 = Some Pending
          ∧ world (webauthn_login axios_cbor payload success_callback failure_callback
                     beginurl completeurl ax (initial w)).2 = w3
      end.
Proof.
  intros Hbegin Hdata Hcredentials Hcontext. split.
  - unfold webauthn_login. run; reflexivity.
  - intros [answer | error |] w3 Hcomplete.
    + intros Hreturns.
      destruct (success_callback answer w3) as [[v | thrown |] w4] eqn:Hsuccess;
        [| by destruct (Hreturns thrown) |];
        unfold webauthn_login; by run.
    + destruct (default login_default_failure_callback failure_callback error
                  WEBAUTHN_LOGIN_FAIL_COMPLETE w3) as [reported w4] eqn:Hfailure.
      unfold webauthn_login. by run.
    + unfold webauthn_login. by run.
Qed.

(** X17.  The two requests of [webauthn_register]: the payload goes to the
    begin url, the options of the answer go to
    [navigator.credentials.create], and the complete url receives the
    payload with the two buffers of the attestation.  The urls and the client
    are the arguments when given, and [/api/auth/register/begin/],
    [/api/auth/register/] and [axios_cbor] otherwise.  What the complete url
    answers decides the inner chain and the world: [success_callback] is
    applied to a response, [failure_callback], or the default one, to a
    rejection with [WEBAUTHN_REGISTER_FAIL_COMPLETE], and nothing to a
    request that stays pending. *)
Theorem webauthn_register_requests (w w1 w2 : W) (res opts attestation data : jsval) :
  post (default axios_cbor ax) (default "/api/auth/register/begin/" beginurl) (VObj payload)
    (logged (default "/api/auth/register/begin/" beginurl)
       (default "/api/auth/register/" completeurl) w)
  = (Fulfilled res, w1) →
  get_prop res "data" = Normal opts →
  navigator_credentials_create opts w1 = (Fulfilled attestation, w2) →
  register_complete_payload_callback payload attestation = Normal data →
  posts (trace (webauthn_register axios_cbor payload success_callback failure_callback
                  beginurl completeurl ax (initial w)).2)
  = [(default "/api/auth/register/begin/" beginurl, VObj payload);
     (default "/api/auth/register/" completeurl, data)]
  ∧ ∀ outcome w3,
      post (default axios_cbor ax) (default "/api/auth/register/" completeurl) data w2
      = (outcome, w3) →
      match outcome with
      | Fulfilled answer =>
          (∀ thrown, (success_callback answer w3).1 ≠ Rejected thrown) →
          inner_chain (webauthn_register axios_cbor payload success_callback failure_callback
                         beginurl completeurl ax (initial w)).1
          = Some (success_callback answer w3).1
          ∧ world (webauthn_register axios_cbor payload success_callback failure_callback
                     beginurl completeurl ax (initial w)).2
            = (success_callback answer w3).2
      | Rejected error =>
          inner_chain (webauthn_register axios_cbor payload success_callback failure_callback
                         beginurl completeurl ax (initial w)).1
          = Some (default register_default_failure_callback failure_callback error
                    WEBAUTHN_REGISTER_FAIL_COMPLETE w3).1
          ∧ world (webauthn_register axios_cbor payload success_callback failure_callback
                     beginurl completeurl ax (initial w)).2
            = (default register_default_failure_callback failure_callback error
                 WEBAUTHN_REGISTER_FAIL_COMPLETE w3).2
      | Pending =>
          inner_chain (webauthn_register axios_cbor payload success_callback failure_callback
                         beginurl completeurl ax (initial w)).1 = Some Pending
          ∧ world (webauthn_register axios_cbor payload success_callback failure_callback
                     beginurl completeurl ax (initial w)).2 = w3
      end.
Proof.
  intros Hbegin Hdata Hcredentials Hcontext. split.
  - unfold webauthn_register. run; reflexivity.
  - intros [answer | error |] w3 Hcomplete.
    + intros Hreturns.
      destruct (success_callback answer w3) as [[v | thrown |] w4] eqn:Hsuccess;
        [| by destruct (Hreturns thrown) |];
        unfold webauthn_register; by run.
    + destruct (default register_default_failure_callback failure_callback error
                  WEBAUTHN_REGISTER_FAIL_COMPLETE w3) as [reported w4] eqn:Hfailure.
      unfold webauthn_register. by run.
    + unfold webauthn_register. by run.
Qed.

(** X18.  With [failure_callback] left out, a begin request that fails is
    logged and the ceremony goes on: the default callback returns
    [undefined], so [navigator.credentials.get], for a login, or
    [navigator.credentials.create], for a registration, is called with
    [undefined] in the world the log line left, and the ceremony goes where
    that call leads: it ends as the call did when the call rejects or never
    settles, and it builds the complete payload from the credential
    otherwise. *)
Theorem default_failure_callback_goes_on (w : W) (error : jsval) :
  (∀ w1,
     post (default axios_cbor ax) (default "/api/auth/login/begin/" beginurl) (VObj payload)
       (logged (default "/api/auth/login/begin/" beginurl)
          (default "/api/auth/login/" completeurl) w)
     = (Rejected error, w1) →
     credentials_calls
       (trace (webauthn_login axios_cbor payload success_callback None
                 beginurl completeurl ax (initial w)).2)
     = [VUndefined])
  ∧ (∀ w1,
       post (default axios_cbor ax) (default "/api/auth/register/begin/" beginurl)
         (VObj payload)
         (logged (default "/api/auth/register/begin/" beginurl)
            (default "/api/auth/register/" completeurl) w)
       = (Rejected error, w1) →
       credentials_calls
         (trace (webauthn_register axios_cbor payload success_callback None
                   beginurl completeurl ax (initial w)).2)
       = [VUndefined])
  ∧ (∀ w1 w2 outcome,
       post (default axios_cbor ax) (default "/api/auth/login/begin/" beginurl)
         (VObj payload)
         (logged (default "/api/auth/login/begin/" beginurl)
            (default "/api/auth/login/" completeurl) w)
       = (Rejected error, w1) →
       navigator_credentials_get VUndefined
         (console_log [VStr "webauthn-login failed:"; VNum WEBAUTHN_LOGIN_FAIL_BEGIN; error]
            w1)
       = (outcome, w2) →
       match outcome with
       | Fulfilled assertion =>
           match login_complete_payload_callback payload assertion with
           | Normal data =>
               posts (trace (webauthn_login axios_cbor payload success_callback None
                               beginurl completeurl ax (initial w)).2)
               = [(default "/api/auth/login/begin/" beginurl, VObj payload);
                  (default "/api/auth/login/" completeurl, data)]
           | Throw thrown =>
               outer_chain (webauthn_login axios_cbor payload success_callback None
                              beginurl completeurl ax (initial w)).1 = Rejected thrown
               ∧ world (webauthn_login axios_cbor payload success_callback None
                          beginurl completeurl ax (initial w)).2 = w2
           end
       | _ =>
           outer_chain (webauthn_login axios_cbor payload success_callback None
                          beginurl completeurl ax (initial w)).1 = outcome
           ∧ world (webauthn_login axios_cbor payload success_callback None
                      beginurl completeurl ax (initial w)).2 = w2
       end)
  ∧ (∀ w1 w2 outcome,
       post (default axios_cbor ax) (default "/api/auth/register/begin/" beginurl)
         (VObj payload)
         (logged (default "/api/auth/register/begin/" beginurl)
            (default "/api/auth/register/" completeurl) w)
       = (Rejected error, w1) →
       navigator_credentials_create VUndefined
         (console_log
            [VStr "webauthn-register failed."; VNum WEBAUTHN_REGISTER_FAIL_BEGIN; error] w1)
       = (outcome, w2) →
       match outcome with
       | Fulfilled attestation =>
           match register_complete_payload_callback payload attestation with
           | Normal data =>
               posts (trace (webauthn_register axios_cbor payload success_callback None
                               beginurl completeurl ax (initial w)).2)
               = [(default "/api/auth/register/begin/" beginurl, VObj payload);
                  (default "/api/auth/register/" completeurl, data)]
           | Throw thrown =>
               outer_chain (webauthn_register axios_cbor payload success_callback None
                              beginurl completeurl ax (initial w)).1 = Rejected thrown
               ∧ world (webauthn_register axios_cbor payload success_callback None
                          beginurl completeurl ax (initial w)).2 = w2
           end
       | _ =>
           outer_chain (webauthn_register axios_cbor payload success_callback None
                          beginurl completeurl ax (initial w)).1 = outcome
           ∧ world (webauthn_register axios_cbor payload success_callback None
                      beginurl completeurl ax (initial w)).2 = w2
       end).
Proof.
  split_and!.
  - intros w1 Hbegin. unfold webauthn_login. simpl (default _ None).
    unfold login_default_failure_callback. run; reflexivity.
  - intros w1 Hbegin. unfold webauthn_register. simpl (default _ None).
    unfold register_default_failure_callback. run; reflexivity.
  - intros w1 w2 outcome Hbegin Hcredentials.
    destruct outcome as [assertion| |];
      [destruct (login_complete_payload_callback payload assertion) eqn:Hpayload | |];
      unfold webauthn_login; simpl (default _ None);
      unfold login_default_failure_callback; run; by repeat split.
  - intros w1 w2 outcome Hbegin Hcredentials.
    destruct outcome as [attestation| |];
      [destruct (register_complete_payload_callback payload attestation) eqn:Hpayload | |];
      unfold webauthn_register; simpl (default _ None);
      unfold register_default_failure_callback; run; by repeat split.
Qed.
End EntryPoints.

(** ** The complete payloads on a credential without a response *)

Section PayloadErrors.
Context {W : Type} {browser : Browser W}.

(** X19.  The complete payload callbacks throw a [TypeError] on a
    credential that is [undefined] or [null], and on one whose [response] is
    (for a login, once [rawId] has been converted). *)
Theorem complete_payload_needs_response (payload : object) (credential : jsval) :
  (nullish credential
   ∨ (∃ response, get_prop credential "response" = Normal response ∧ nullish response) →
   register_complete_payload_callback payload credential = Throw TypeError)
  ∧ (nullish credential
     ∨ (∃ rawId credentialId response,
          get_prop credential "rawId" = Normal rawId
          ∧ Uint8Array_new rawId = Normal credentialId
          ∧ get_prop credential "response" = Normal response
          ∧ nullish response) →
     login_complete_payload_callback payload credential = Throw TypeError).
Proof.
  split.
  - intros [[-> | ->] | (response & Hresponse & [-> | ->])]; try done;
      unfold register_complete_payload_callback; by rewrite Hresponse.
  - intros [[-> | ->] | (rawId & id & response & HrawId & Hid & Hresponse & [-> | ->])];
      try done;
      unfold login_complete_payload_callback; rewrite HrawId; cbn [mbind completion_bind];
      rewrite Hid; cbn [mbind completion_bind]; by rewrite Hresponse.
Qed.
End PayloadErrors.

(** ** The further properties on the reference host *)

Section FurtherExamples.
Import Cbor Reference.

Lemma interceptors_need_headers_witness :
  cborRequestInterceptor no_headers = Rejected TypeError
  ∧ cborResponseInterceptor no_headers = Rejected TypeError.
Proof. apply (interceptors_need_headers no_headers). by left. Defined.

Lemma interceptors_skip_without_content_type_witness :
  cborRequestInterceptor capitalized_request = Fulfilled capitalized_request
  ∧ cborResponseInterceptor capitalized_request = Fulfilled capitalized_request.
Proof.
  by apply (interceptors_skip_without_content_type capitalized_request
              (<["Content-Type" := VStr application_cbor]> ∅)).
Defined.

Lemma cborRequestInterceptor_rejects_iff_witness :
  cborRequestInterceptor unencodable_request = Rejected codec_error
  ∧ cborRequestInterceptor no_headers = Rejected TypeError.
Proof.
  split.
  - apply (proj2 (cborRequestInterceptor_rejects_iff unencodable_request codec_error)).
    right. by split.
  - apply (proj2 (cborRequestInterceptor_rejects_iff no_headers TypeError)). by left.
Defined.

Lemma cborResponseInterceptor_rejects_iff_witness :
  cborResponseInterceptor (response (VBytes malformed)) = Rejected codec_error
  ∧ cborResponseInterceptor (response (VNum 5)) = Rejected TypeError.
Proof.
  split.
  - apply (proj2 (cborResponseInterceptor_rejects_iff (response (VBytes malformed))
                    codec_error)).
    right. split; [done |]. right. by exists malformed.
  - apply (proj2 (cborResponseInterceptor_rejects_iff (response (VNum 5)) TypeError)).
    right. split; [done |]. by left.
Defined.

Lemma interceptors_frame_witness :
  cborResponseInterceptor (response (VBytes two_items))
  = Fulfilled (<["data" := VObj alice]> (response (VBytes two_items)))
  ∧ (∀ k, k ≠ "data" →
          <["data" := VObj alice]> (response (VBytes two_items)) !! k
          = response (VBytes two_items) !! k)
  ∧ content_type (<["data" := VObj alice]> (response (VBytes two_items)))
    = content_type (response (VBytes two_items)).
Proof.
  assert (cborResponseInterceptor (response (VBytes two_items))
          = Fulfilled (<["data" := VObj alice]> (response (VBytes two_items)))) as Hrun
    by (vm_compute; reflexivity).
  split; [exact Hrun |].
  exact (proj2 (interceptors_frame (response (VBytes two_items)) _) Hrun).
Defined.

Lemma cborRequestInterceptor_twice_witness :
  ∃ request',
    cborRequestInterceptor request = Fulfilled request'
    ∧ request' !! "data" = Some (VBytes (encode (VObj bob)))
    ∧ ∃ request'',
        cborRequestInterceptor request' = Fulfilled request''
        ∧ request'' !! "data" = Some (VBytes (encode (VBytes (encode (VObj bob)))))
        ∧ request'' ≠ request'.
Proof.
  destruct (cborRequestInterceptor_twice request (encode (VObj bob))
              (encode (VBytes (encode (VObj bob)))))
    as (request' & Hfirst & Honce & request'' & Hsecond & Htwice & Hsame);
    [done.. |].
  exists request'. split_and!; [done.. |].
  exists request''. split_and!; [done.. |].
  intros Hlength%Hsame. apply (f_equal length) in Hlength. by vm_compute in Hlength.
Defined.

Lemma credentials_receive_begin_data_witness :
  credentials_calls (trace login_complete_500.2) = [options]
  ∧ (∃ rest,
       trace login_complete_500.2 = [Post login_begin (VObj bob); Credentials options] ++ rest)
  ∧ outer_chain login_prompt_dismissed.1 = Rejected NotAllowedError
  ∧ world login_prompt_dismissed.2 = [banner login_begin login_complete].
Proof.
  pose proof (credentials_receive_begin_data bob success failure navigator_credentials_get
                login_payload_callback login_begin login_complete
                WEBAUTHN_LOGIN_FAIL_BEGIN WEBAUTHN_LOGIN_FAIL_COMPLETE
                (server login_begin (Fulfilled challenge) (Rejected status_500)) []
                [banner login_begin login_complete] challenge options eq_refl eq_refl)
    as (Hcalls & Hrest & _).
  pose proof (credentials_receive_begin_data bob success failure prompt_dismissed
                login_payload_callback login_begin login_complete
                WEBAUTHN_LOGIN_FAIL_BEGIN WEBAUTHN_LOGIN_FAIL_COMPLETE
                (server login_begin (Fulfilled challenge) Pending) []
                [banner login_begin login_complete] challenge options eq_refl eq_refl)
    as (_ & _ & Hends).
  split; [exact Hcalls |]. split; [exact Hrest |].
  exact (Hends (Rejected NotAllowedError) [banner login_begin login_complete] eq_refl
           (λ auth Hauth, eq_ind (Rejected NotAllowedError)
                            (λ s, match s with Rejected _ => True | _ => False end)
                            I (Fulfilled auth) Hauth)).
Defined.

Lemma begin_response_unreadable_witness :
  (∃ rest,
     trace (login_with (server login_begin (Fulfilled VNull) Pending) failure
              navigator_credentials_get).2
     = [Post login_begin (VObj bob); Failure TypeError WEBAUTHN_LOGIN_FAIL_BEGIN] ++ rest)
  ∧ trace (login_with (server login_begin (Fulfilled VNull) Pending) failure_throws
             navigator_credentials_get).2
    = [Post login_begin (VObj bob); Failure TypeError WEBAUTHN_LOGIN_FAIL_BEGIN]
  ∧ outer_chain (login_with (server login_begin (Fulfilled VNull) Pending) failure_throws
                   navigator_credentials_get).1 = Rejected broken
  ∧ world (login_with (server login_begin (Fulfilled VNull) Pending) failure_throws
             navigator_credentials_get).2 = [banner login_begin login_complete].
Proof.
  pose proof (begin_response_unreadable bob success failure navigator_credentials_get
                login_payload_callback login_begin login_complete
                WEBAUTHN_LOGIN_FAIL_BEGIN WEBAUTHN_LOGIN_FAIL_COMPLETE
                (server login_begin (Fulfilled VNull) Pending) []
                [banner login_begin login_complete] VNull eq_refl (or_intror eq_refl))
    as (Hrest & _).
  pose proof (begin_response_unreadable bob success failure_throws navigator_credentials_get
                login_payload_callback login_begin login_complete
                WEBAUTHN_LOGIN_FAIL_BEGIN WEBAUTHN_LOGIN_FAIL_COMPLETE
                (server login_begin (Fulfilled VNull) Pending) []
                [banner login_begin login_complete] VNull eq_refl (or_intror eq_refl))
    as (_ & Hends).
  split; [exact Hrest |].
  exact (Hends (Rejected broken) [banner login_begin login_complete] eq_refl
           (λ v Hv, eq_ind (Rejected broken)
                      (λ s, match s with Rejected _ => True | _ => False end)
                      I (Fulfilled v) Hv)).
Defined.

Lemma begin_failure_stops_when_callback_throws_witness :
  trace (login_with (server login_begin (Rejected status_400) Pending) failure_throws
           navigator_credentials_get).2
  = [Post login_begin (VObj bob); Failure status_400 WEBAUTHN_LOGIN_FAIL_BEGIN]
  ∧ outer_chain (login_with (server login_begin (Rejected status_400) Pending)
                   failure_throws navigator_credentials_get).1 = Rejected broken
  ∧ inner_chain (login_with (server login_begin (Rejected status_400) Pending)
                   failure_throws navigator_credentials_get).1 = None.
Proof.
  eapply (begin_failure_stops_when_callback_throws bob success failure_throws
            navigator_credentials_get _ login_begin login_complete _ _ _ [] _ _
            status_400 broken);
    reflexivity.
Defined.

Lemma complete_payload_failure_unreported_witness :
  trace (login_with (server login_begin (Fulfilled challenge) (Fulfilled done)) failure
           resolves_null).2
  = [Post login_begin (VObj bob); Credentials options]
  ∧ outer_chain (login_with (server login_begin (Fulfilled challenge) (Fulfilled done))
                   failure resolves_null).1 = Rejected TypeError
  ∧ inner_chain (login_with (server login_begin (Fulfilled challenge) (Fulfilled done))
                   failure resolves_null).1 = None.
Proof.
  eapply (complete_payload_failure_unreported bob success failure resolves_null _
            login_begin login_complete _ _ _ [] _ _ _ challenge options VNull TypeError);
    reflexivity.
Defined.

Lemma outer_chain_does_not_wait_witness :
  outer_chain (login_with (server login_begin (Fulfilled challenge) Pending) failure
                 navigator_credentials_get).1 = Fulfilled VUndefined
  ∧ ∃ inner,
      inner_chain (login_with (server login_begin (Fulfilled challenge) Pending) failure
                     navigator_credentials_get).1 = Some inner.
Proof.
  eapply (outer_chain_does_not_wait bob success failure navigator_credentials_get _
            login_begin login_complete _ _ _ [] _ _ _ challenge options assertion
            bob_complete);
    reflexivity.
Defined.

Lemma unsettled_calls_are_not_reported_witness :
  trace (login_with (server login_begin Pending Pending) failure
           navigator_credentials_get).2
  = [Post login_begin (VObj bob)]
  ∧ trace (login_with (server login_begin (Fulfilled challenge) Pending) failure
             never_answers).2
    = [Post login_begin (VObj bob); Credentials options]
  ∧ trace (login_with (server login_begin (Fulfilled challenge) Pending) failure
             navigator_credentials_get).2
    = [Post login_begin (VObj bob); Credentials options; Post login_complete bob_complete].
Proof.
  split_and!.
  - eapply (proj1 (unsettled_calls_are_not_reported bob success failure
                     navigator_credentials_get _ login_begin login_complete _ _ _ [])).
    reflexivity.
  - eapply (proj1 (proj2 (unsettled_calls_are_not_reported bob success failure
                            never_answers _ login_begin login_complete _ _ _ []))
              _ _ challenge options);
      reflexivity.
  - eapply (proj2 (proj2 (unsettled_calls_are_not_reported bob success failure
                            navigator_credentials_get _ login_begin login_complete _ _ _ []))
              _ _ _ _ challenge options assertion bob_complete);
      reflexivity.
Defined.

Lemma webauthn_login_requests_witness :
  posts (trace login_complete_500.2)
  = [(login_begin, VObj bob); (login_complete, bob_complete)]
  ∧ inner_chain login_complete_500.1 = Some (Fulfilled VUndefined)
  ∧ world login_complete_500.2
    = [banner login_begin login_complete;
       [VStr "failure"; VNum WEBAUTHN_LOGIN_FAIL_COMPLETE; status_500]].
Proof.
  pose proof (webauthn_login_requests
                (server login_begin (Fulfilled challenge) (Rejected status_500))
                bob success (Some failure) None None None []
                [banner login_begin login_complete] [banner login_begin login_complete]
                challenge options assertion bob_complete
                eq_refl eq_refl eq_refl eq_refl)
    as (Hposts & Hcomplete).
  split; [exact Hposts |].
  exact (Hcomplete (Rejected status_500) [banner login_begin login_complete] eq_refl).
Defined.

Lemma webauthn_register_requests_witness :
  posts (trace (register_accepted success).2)
  = [(register_begin, VObj alice); ("/api/auth/register/", alice_complete)]
  ∧ inner_chain (register_accepted success).1 = Some (Fulfilled VUndefined)
  ∧ world (register_accepted success).2
    = [banner register_begin "/api/auth/register/"; [VStr "success"; done]].
Proof.
  pose proof (webauthn_register_requests
                (server register_begin (Fulfilled challenge) (Fulfilled done))
                alice success (Some failure) None None None []
                [banner register_begin "/api/auth/register/"]
                [banner register_begin "/api/auth/register/"]
                challenge options attestation alice_complete
                eq_refl eq_refl eq_refl eq_refl)
    as (Hposts & Hcomplete).
  split; [exact Hposts |].
  exact (Hcomplete (Fulfilled done) [banner register_begin "/api/auth/register/"] eq_refl
           (λ thrown Hthrown,
              eq_ind (Fulfilled VUndefined)
                (λ s : settled jsval, match s with Fulfilled _ => True | _ => False end)
                I (Rejected thrown) Hthrown)).
Defined.

Lemma default_failure_callback_goes_on_witness :
  credentials_calls (trace login_begin_400.2) = [VUndefined]
  ∧ credentials_calls (trace register_begin_400.2) = [VUndefined]
  ∧ (outer_chain login_begin_400.1 = Rejected NotSupportedError
     ∧ world login_begin_400.2
       = [banner login_begin login_complete;
          [VStr "webauthn-login failed:"; VNum WEBAUTHN_LOGIN_FAIL_BEGIN; status_400]])
  ∧ (outer_chain register_begin_400.1 = Rejected NotSupportedError
     ∧ world register_begin_400.2
       = [banner register_begin "/api/auth/register/";
          [VStr "webauthn-register failed."; VNum WEBAUTHN_REGISTER_FAIL_BEGIN;
           status_400]]).
Proof.
  pose proof (default_failure_callback_goes_on
                (server login_begin (Rejected status_400) Pending)
                bob success None None None [] status_400)
    as (Hlogin & _ & Hget & _).
  pose proof (default_failure_callback_goes_on
                (server register_begin (Rejected status_400) Pending)
                alice success None None None [] status_400)
    as (_ & Hregister & _ & Hcreate).
  split; [exact (Hlogin [banner login_begin login_complete] eq_refl) |].
  split; [exact (Hregister [banner register_begin "/api/auth/register/"] eq_refl) |].
  split.
  - exact (Hget [banner login_begin login_complete]
             [banner login_begin login_complete;
              [VStr "webauthn-login failed:"; VNum WEBAUTHN_LOGIN_FAIL_BEGIN; status_400]]
             (Rejected NotSupportedError) eq_refl eq_refl).
  - exact (Hcreate [banner register_begin "/api/auth/register/"]
             [banner register_begin "/api/auth/register/";
              [VStr "webauthn-register failed."; VNum WEBAUTHN_REGISTER_FAIL_BEGIN;
               status_400]]
             (Rejected NotSupportedError) eq_refl eq_refl).
Defined.

Lemma complete_payload_needs_response_witness :
  register_complete_payload_callback alice VNull = Throw TypeError
  ∧ login_complete_payload_callback bob (VObj (<["rawId" := VBytes [x01]]> ∅))
    = Throw TypeError.
Proof.
  split.
  - apply (proj1 (complete_payload_needs_response alice VNull)). left. by right.
  - apply (proj2 (complete_payload_needs_response bob
                    (VObj (<["rawId" := VBytes [x01]]> ∅)))).
    right. exists (VBytes [x01]), [x01], VUndefined. split_and!; [done.. | by left].
Defined.
End FurtherExamples.
